(** * aingle_sdk: the Python client of an AIngle node

    A shallow embedding of [src/aingle_sdk/types.py] and
    [src/aingle_sdk/client.py].  The client object, the objects it
    allocates (httpx clients, WebSocket connections, asyncio tasks) and
    the observable traffic live in one explicit state; every method is
    a computation in a state-and-exception monad over that state, and
    the asyncio event loop is a list of atomic actions run in order. *)

From Stdlib Require Import ZArith QArith.
From stdpp Require Import base option list strings.

Set Warnings "-register-all".

Open Scope string_scope.
Open Scope list_scope.

(** ** Python values that come out of [json.loads] / [response.json()] *)

(** A JSON object keeps its members in text order; [json.loads] builds
    the dict by successive insertion, so a repeated key takes its last
    value. Floats are carried by their literal and never computed on. *)
Inductive json : Type :=
  | JNull
  | JBool (b : bool)
  | JInt (z : Z)
  | JFloat (literal : string)
  | JStr (s : string)
  | JArr (items : list json)
  | JObj (members : list (string * json)).

(** [d[key]] on the dict built from [members]: the last binding wins. *)
Fixpoint dict_get (key : string) (members : list (string * json)) : option json :=
  match members with
  | [] => None
  | (k, v) :: rest =>
      match dict_get key rest with
      | Some v' => Some v'
      | None => if String.eqb k key then Some v else None
      end
  end.

Definition dict_keys (members : list (string * json)) : list string :=
  map fst members.

Definition has_key (key : string) (members : list (string * json)) : bool :=
  existsb (String.eqb key) (dict_keys members).

(** ** types.py *)

(** [EntryHash = str]: the annotated type of the [get_entry] argument,
    which is formatted into the request path. *)
Definition EntryHash : Type := string.

(** A dataclass stores whatever it is given: the annotations
    ([hash: EntryHash], [timestamp: Timestamp], ...) are not checked at
    run time, so every field holds an arbitrary Python value. *)
Record Entry : Type := mkEntry {
  hash : json;
  author : json;
  parents : json;
  data : json;
  timestamp : json;
  sequence : json;
  signature : json
}.

Record NodeInfo : Type := mkNodeInfo {
  node_id : json;
  version : json;
  uptime : json;
  entries_count : json;
  peers_count : json;
  storage_backend : json;
  features : json
}.

Inductive ErrorCode : Type :=
  | CONNECTION_FAILED
  | TIMEOUT
  | NOT_FOUND
  | INVALID_ENTRY
  | STORAGE_ERROR
  | NETWORK_ERROR
  | AUTH_ERROR.




(** ** Exceptions

    [AIngleError] is the SDK's own exception class (types.py); the
    others are the exceptions of Python and of the two transport
    libraries that the client's statements can raise. *)
Inductive exn : Type :=
  | AIngleError (code : ErrorCode) (message : string) (cause : option exn)
  | httpx_TimeoutException
  | httpx_ConnectError
  | httpx_TransportError
  | httpx_HTTPStatusError (status_code : Z)
  | JSONDecodeError
  | KeyError (key : string)
  | TypeError
  | AssertionError
  | RuntimeError
  | CancelledError
  | ws_ConnectionRefused
  | CallbackError.

(** The error kind an exception carries, if it is the SDK's. *)
Definition error_kind (e : exn) : option ErrorCode :=
  match e with
  | AIngleError code _ _ => Some code
  | _ => None
  end.

Inductive result (A : Type) : Type :=
  | Ok (a : A)
  | Raise (e : exn).
Arguments Ok {A} a.
Arguments Raise {A} e.

Definition Entry_fields : list string :=
  ["hash"; "author"; "parents"; "data"; "timestamp"; "sequence"; "signature"].

Definition NodeInfo_fields : list string :=
  ["node_id"; "version"; "uptime"; "entries_count"; "peers_count";
   "storage_backend"; "features"].

(** Binding [**kwargs] against a generated [__init__] whose parameters
    are [fields], none with a default: every parameter must be given
    and no other keyword is accepted. *)
Definition kwargs_bind (fields : list string) (members : list (string * json)) : bool :=
  forallb (fun f => has_key f members) fields
  && forallb (fun k => existsb (String.eqb k) fields) (dict_keys members).

Definition field (key : string) (members : list (string * json)) : json :=
  default JNull (dict_get key members).

(** [Entry] called with [**value]: [value] must be a mapping whose keys are exactly
    the seven field names; anything else is a [TypeError]. *)
Definition Entry_init (value : json) : result Entry :=
  match value with
  | JObj members =>
      if kwargs_bind Entry_fields members then
        Ok {| hash := field "hash" members;
              author := field "author" members;
              parents := field "parents" members;
              data := field "data" members;
              timestamp := field "timestamp" members;
              sequence := field "sequence" members;
              signature := field "signature" members |}
      else Raise TypeError
  | _ => Raise TypeError
  end.

(** [NodeInfo] called with [**value] *)
Definition NodeInfo_init (value : json) : result NodeInfo :=
  match value with
  | JObj members =>
      if kwargs_bind NodeInfo_fields members then
        Ok {| node_id := field "node_id" members;
              version := field "version" members;
              uptime := field "uptime" members;
              entries_count := field "entries_count" members;
              peers_count := field "peers_count" members;
              storage_backend := field "storage_backend" members;
              features := field "features" members |}
      else Raise TypeError
  | _ => Raise TypeError
  end.

(** [value["hash"]]: a dict is looked up, every other JSON value
    refuses a string subscript. *)
Definition subscript (value : json) (key : string) : result json :=
  match value with
  | JObj members =>
      match dict_get key members with
      | Some v => Ok v
      | None => Raise (KeyError key)
      end
  | _ => Raise TypeError
  end.

(** ** The objects the client allocates, and the observable trace *)

Record AIngleClientConfig : Type := mkConfig {
  node_url : string;
  ws_url : string;
  timeout : Q;
  debug : bool
}.

(** An [httpx.AsyncClient]. *)
Record AsyncClient : Type := mkAsyncClient {
  base_url : string;
  client_timeout : Q;
  is_closed : bool
}.

(** A WebSocket connection: [inbox] holds the frames that have arrived
    and that no [async for] iteration has consumed yet, oldest first. *)
Record WebSocket : Type := mkWebSocket {
  uri : string;
  ws_closed : bool;
  inbox : list string
}.

Inductive method : Type := GET | POST.

Record Request : Type := mkRequest {
  req_method : method;
  req_url : string;
  req_path : string;
  req_json : option json
}.

(** What the client reads of an [httpx.Response]: the status code and
    the value of [response.json()] ([None] when the body is not JSON
    and the call raises). *)
Record Response : Type := mkResponse {
  status : Z;
  json_body : option json
}.

Inductive http_outcome : Type :=
  | Responds (r : Response)
  | TimesOut
  | Refuses
  | Breaks.

(** The two coroutines the client hands to [asyncio.create_task]: the
    closure [listen()] of [subscribe], which captures the callback, and
    [self._ws.close()], whose receiver is fixed when the coroutine
    object is built. A callback is a Python function of the entry that
    returns ([None]) or raises. *)
Inductive coroutine : Type :=
  | listen (callback : Entry -> option exn)
  | ws_close_coro (ws : nat).

Inductive task_status : Type :=
  | Created
  | Suspended (ws : nat)
  | Done (outcome : result unit).

Record Task : Type := mkTask {
  coro : coroutine;
  progress : task_status;
  must_cancel : bool
}.

Inductive event : Type :=
  | EvPrint (line : string)
  | EvRequest (client : nat) (r : Request)
  | EvAclose (client : nat)
  | EvWsOpen (ws : nat)
  | EvWsClose (ws : nat)
  | EvRecv (task ws : nat) (message : string)
  | EvCall (task : nat) (entry : Entry)
  | EvReturn (task : nat).

(** The client object ([config], [_http_client], [_ws]), the heaps of
    the objects it has created (a handle is an index), and the trace of
    what it did, oldest event first. *)
Record state : Type := mkState {
  config : AIngleClientConfig;
  _http_client : option nat;
  _ws : option nat;
  http_clients : list AsyncClient;
  sockets : list WebSocket;
  tasks : list Task;
  trace : list event
}.

(** [AIngleClient.__init__] *)
Definition AIngleClient_init (node_url ws_url : string) (timeout : Q) (debug : bool) : state :=
  {| config := mkConfig node_url ws_url timeout debug;
     _http_client := None;
     _ws := None;
     http_clients := [];
     sockets := [];
     tasks := [];
     trace := [] |}.

Definition AIngleClient_default : state :=
  AIngleClient_init "http://localhost:8080" "ws://localhost:8081" (30 # 1) false.

Definition with_http_client (v : option nat) (s : state) : state :=
  mkState (config s) v (_ws s) (http_clients s) (sockets s) (tasks s) (trace s).
Definition with_ws (v : option nat) (s : state) : state :=
  mkState (config s) (_http_client s) v (http_clients s) (sockets s) (tasks s) (trace s).
Definition with_http_clients (v : list AsyncClient) (s : state) : state :=
  mkState (config s) (_http_client s) (_ws s) v (sockets s) (tasks s) (trace s).
Definition with_sockets (v : list WebSocket) (s : state) : state :=
  mkState (config s) (_http_client s) (_ws s) (http_clients s) v (tasks s) (trace s).
Definition with_tasks (v : list Task) (s : state) : state :=
  mkState (config s) (_http_client s) (_ws s) (http_clients s) (sockets s) v (trace s).
Definition with_trace (v : list event) (s : state) : state :=
  mkState (config s) (_http_client s) (_ws s) (http_clients s) (sockets s) (tasks s) v.

(** ** Computations: state passing with Python exceptions

    An exception leaves the state as the statements before it made it. *)
Definition M (A : Type) : Type := state -> result A * state.

Definition ret {A} (a : A) : M A := fun s => (Ok a, s).
Definition raise {A} (e : exn) : M A := fun s => (Raise e, s).
Definition bind {A B} (m : M A) (k : A -> M B) : M B :=
  fun s => match m s with
           | (Ok a, s') => k a s'
           | (Raise e, s') => (Raise e, s')
           end.
Definition lift {A} (r : result A) : M A := fun s => (r, s).
Definition gets {A} (f : state -> A) : M A := fun s => (Ok (f s), s).
Definition modify (f : state -> state) : M unit := fun s => (Ok tt, f s).

#[export] Instance M_ret : MRet M := @ret.
#[export] Instance M_bind : MBind M := fun A B k m => bind m k.

Definition emit (e : event) : M unit :=
  modify (fun s => with_trace (trace s ++ [e]) s).

(** [response.is_success] *)
Definition is_success (code : Z) : bool := (200 <=? code)%Z && (code <=? 299)%Z.

(** [response.raise_for_status()]: returns on a 2xx status and raises
    [HTTPStatusError] on a 4xx or 5xx one. On the remaining statuses
    httpx raises as well since it tests [is_success], which is what is
    written here. *)
Definition raise_for_status (r : Response) : M unit :=
  if is_success (status r) then ret tt
  else raise (httpx_HTTPStatusError (status r)).

(** [response.json()] *)
Definition response_json (r : Response) : M json :=
  match json_body r with
  | Some value => ret value
  | None => raise JSONDecodeError
  end.

(** The requests a trace records, oldest first. *)
Definition sent (tr : list event) : list Request :=
  omap (fun e => match e with EvRequest _ r => Some r | _ => None end) tr.

(** How often [close()] was called on the socket [w]. *)
Definition close_calls (w : nat) (tr : list event) : nat :=
  length (List.filter
            (fun e => match e with EvWsClose w' => Nat.eqb w' w | _ => false end) tr).

(** The callback invocations a trace records, oldest first. *)
Definition calls (tr : list event) : list (nat * Entry) :=
  omap (fun e => match e with EvCall t entry => Some (t, entry) | _ => None end) tr.

Definition close_client (c : AsyncClient) : AsyncClient :=
  mkAsyncClient (base_url c) (client_timeout c) true.

Definition close_socket (w : WebSocket) : WebSocket :=
  mkWebSocket (uri w) true (inbox w).

Definition with_inbox (frames : list string) (w : WebSocket) : WebSocket :=
  mkWebSocket (uri w) (ws_closed w) frames.

Definition with_progress (p : task_status) (t : Task) : Task :=
  mkTask (coro t) p (must_cancel t).

(** [Task.cancel()]: a finished task ignores it, any other is marked
    and gets [CancelledError] when the loop next resumes it. *)
Definition request_cancel (t : Task) : Task :=
  match progress t with
  | Done _ => t
  | _ => mkTask (coro t) (progress t) true
  end.

(** ** Sample nodes, bodies and frames *)

Definition sample_entry (h : string) : json :=
  JObj [("hash", JStr h); ("author", JStr "agent"); ("parents", JArr []);
        ("data", JNull); ("timestamp", JInt 0); ("sequence", JInt 0);
        ("signature", JStr "sig")].

Definition sample_info : json :=
  JObj [("node_id", JStr "n1"); ("version", JStr "0.1.0"); ("uptime", JInt 5);
        ("entries_count", JInt 1); ("peers_count", JInt 0);
        ("storage_backend", JStr "sqlite"); ("features", JArr [])].

(** A node that stores entries: it answers a POST with the hash, a GET
    of that hash with the entry, a GET of another hash with 404. *)
Definition node_serving (seen : list Request) (rq : Request) : http_outcome :=
  match req_method rq with
  | POST => Responds (mkResponse 201 (Some (JObj [("hash", JStr "abc")])))
  | GET =>
      if String.eqb (req_path rq) "/api/v1/info"
      then Responds (mkResponse 200 (Some sample_info))
      else if String.eqb (req_path rq) "/api/v1/entries/abc"
      then Responds (mkResponse 200 (Some (sample_entry "abc")))
      else Responds (mkResponse 404 None)
  end.

Definition node_timing_out (seen : list Request) (rq : Request) : http_outcome := TimesOut.
Definition node_refusing (seen : list Request) (rq : Request) : http_outcome := Refuses.
Definition node_with_status (code : Z) (seen : list Request) (rq : Request) : http_outcome :=
  Responds (mkResponse code None).
Definition node_answering (body : json) (seen : list Request) (rq : Request) : http_outcome :=
  Responds (mkResponse 200 (Some body)).

(** An entry body without its [signature], and one whose [hash] is a
    number. *)
Definition body_without_signature : json :=
  JObj [("hash", JStr "abc"); ("author", JStr "agent"); ("parents", JArr []);
        ("data", JNull); ("timestamp", JInt 0); ("sequence", JInt 0)].

Definition body_with_numeric_hash : json :=
  JObj [("hash", JInt 5); ("author", JStr "agent"); ("parents", JArr []);
        ("data", JNull); ("timestamp", JInt 0); ("sequence", JInt 0);
        ("signature", JStr "sig")].

Definition quoted (s : string) : string :=
  String (Ascii.ascii_of_nat 34) (s ++ String (Ascii.ascii_of_nat 34) EmptyString).

(** The text of the frame for [sample_entry h]. *)
Definition frame_text (h : string) : string :=
  "{" ++ quoted "hash" ++ ":" ++ quoted h ++ ","
  ++ quoted "author" ++ ":" ++ quoted "agent" ++ ","
  ++ quoted "parents" ++ ":[],"
  ++ quoted "data" ++ ":null,"
  ++ quoted "timestamp" ++ ":0,"
  ++ quoted "sequence" ++ ":0,"
  ++ quoted "signature" ++ ":" ++ quoted "sig" ++ "}".

(** [json.loads] on the two frames used below. *)
Definition loads_two_frames (message : string) : option json :=
  if String.eqb message (frame_text "a") then Some (sample_entry "a")
  else if String.eqb message (frame_text "b") then Some (sample_entry "b")
  else None.

Definition accepts_all (u : string) : bool := true.

Definition returns_normally (entry : Entry) : option exn := None.

Definition accepts_none (u : string) : bool := false.

(** A client constructed with [debug=True]. *)
Definition AIngleClient_verbose : state :=
  AIngleClient_init "http://localhost:8080" "ws://localhost:8081" (30 # 1) true.

(** ** client.py *)

Section Client.

(** The world outside the process: the node's answer to a request
    given the requests it has seen before, whether a WebSocket
    handshake with a URL completes, and [json.loads]. *)
Variable node : list Request -> Request -> http_outcome.
Variable ws_accepts : string -> bool.
Variable json_loads : string -> option json.

(** *** Library calls *)

(** [httpx.AsyncClient(base_url=..., timeout=...)] *)
Definition httpx_AsyncClient (base : string) (t : Q) : M nat :=
  fun s => (Ok (length (http_clients s)),
            with_http_clients (http_clients s ++ [mkAsyncClient base t false]) s).

(** [await client.aclose()] *)
Definition aclose (c : nat) : M unit :=
  emit (EvAclose c);;
  modify (fun s => with_http_clients (alter close_client c (http_clients s)) s).

(** [await client.request(method, path, json=body)]: a closed client
    refuses to send; otherwise the request goes out and the node or the
    network decides. *)
Definition send (c : nat) (m : method) (path : string) (body : option json) : M Response :=
  clients ← gets http_clients;
  match clients !! c with
  | None => raise RuntimeError
  | Some client =>
      if is_closed client then raise RuntimeError
      else
        seen ← gets (fun s => sent (trace s));
        let request := mkRequest m (base_url client ++ path) path body in
        emit (EvRequest c request);;
        match node seen request with
        | Responds response => ret response
        | TimesOut => raise httpx_TimeoutException
        | Refuses => raise httpx_ConnectError
        | Breaks => raise httpx_TransportError
        end
  end.

(** [await websockets.connect(uri)] *)
Definition websockets_connect (u : string) : M nat :=
  if ws_accepts u then
    w ← gets (fun s => length (sockets s));
    modify (fun s => with_sockets (sockets s ++ [mkWebSocket u false []]) s);;
    emit (EvWsOpen w);;
    ret w
  else raise ws_ConnectionRefused.

(** [await ws.close()] *)
Definition ws_close (w : nat) : M unit :=
  emit (EvWsClose w);;
  modify (fun s => with_sockets (alter close_socket w (sockets s)) s).

(** [asyncio.create_task(coroutine)]: the task is queued, not run. *)
Definition create_task (c : coroutine) : M nat :=
  fun s => (Ok (length (tasks s)),
            with_tasks (tasks s ++ [mkTask c Created false]) s).

(** [task.cancel()] *)
Definition task_cancel (t : nat) : M unit :=
  modify (fun s => with_tasks (alter request_cancel t (tasks s)) s).

(** *** AIngleClient *)

Definition connect : M unit :=
  cfg ← gets config;
  (if debug cfg then emit (EvPrint ("Connecting to " ++ node_url cfg)) else ret tt);;
  client ← httpx_AsyncClient (node_url cfg) (timeout cfg);
  modify (with_http_client (Some client)).

Definition disconnect : M unit :=
  http ← gets _http_client;
  match http with
  | Some client => aclose client;; modify (with_http_client None)
  | None => ret tt
  end;;
  ws ← gets _ws;
  match ws with
  | Some w => ws_close w;; modify (with_ws None)
  | None => ret tt
  end.

(** The three lines every HTTP method starts with: connect when
    [_http_client] is falsy, then assert it is set. *)
Definition ensure_http_client : M nat :=
  http ← gets _http_client;
  match http with
  | None => connect
  | Some _ => ret tt
  end;;
  http ← gets _http_client;
  match http with
  | None => raise AssertionError
  | Some client => ret client
  end.

Definition create_entry (data : json) : M json :=
  client ← ensure_http_client;
  response ← send client POST "/api/v1/entries" (Some (JObj [("data", data)]));
  raise_for_status response;;
  result ← response_json response;
  lift (subscript result "hash").

Definition get_entry (hash : EntryHash) : M (option Entry) :=
  client ← ensure_http_client;
  response ← send client GET ("/api/v1/entries/" ++ hash) None;
  if (status response =? 404)%Z then ret None
  else
    raise_for_status response;;
    body ← response_json response;
    entry ← lift (Entry_init body);
    ret (Some entry).

Definition get_node_info : M NodeInfo :=
  client ← ensure_http_client;
  response ← send client GET "/api/v1/info" None;
  raise_for_status response;;
  body ← response_json response;
  lift (NodeInfo_init body).

(** [subscribe] returns the closure [unsubscribe], which captures the
    task it created (and [self]); the closure is represented by that
    task's handle and called with [unsubscribe]. *)
Definition subscribe (callback : Entry -> option exn) : M nat :=
  cfg ← gets config;
  w ← websockets_connect (ws_url cfg);
  modify (with_ws (Some w));;
  create_task (listen callback).

Definition unsubscribe (task : nat) : M unit :=
  task_cancel task;;
  ws ← gets _ws;
  match ws with
  | Some w => create_task (ws_close_coro w);; ret tt
  | None => ret tt
  end.




(** *** The listener task

    The body of [listen()]: [async for message in self._ws] with
    [json.loads], [Entry] and [callback] inside. Between two frames
    there is no [await] other than the wait for the next frame, so once
    resumed the task consumes the frames already received one after the
    other; it stops at the first statement that raises. The result is
    the events in order, the exception if one was raised, and the frames
    left unread. *)
Fixpoint listen_loop (t w : nat) (callback : Entry -> option exn) (frames : list string)
  : list event * option exn * list string :=
  match frames with
  | [] => ([], None, [])
  | message :: rest =>
      match json_loads message with
      | None => ([EvRecv t w message], Some JSONDecodeError, rest)
      | Some entry_data =>
          match Entry_init entry_data with
          | Raise e => ([EvRecv t w message], Some e, rest)
          | Ok entry =>
              match callback entry with
              | Some e => ([EvRecv t w message; EvCall t entry], Some e, rest)
              | None =>
                  let '(evs, failure, unread) := listen_loop t w callback rest in
                  (EvRecv t w message :: EvCall t entry :: EvReturn t :: evs,
                   failure, unread)
              end
          end
      end
  end.

Definition set_progress (t : nat) (p : task_status) : M unit :=
  modify (fun s => with_tasks (alter (with_progress p) t (tasks s)) s).

(** Run the iteration of task [t] over socket [w] until it has to wait:
    it ends when the socket is closed and drained, and is suspended
    when the socket is open and drained. *)
Definition iterate (t : nat) (callback : Entry -> option exn) (w : nat) : M unit :=
  socks ← gets sockets;
  match socks !! w with
  | None => set_progress t (Done (Raise RuntimeError))
  | Some sock =>
      let '(evs, failure, unread) := listen_loop t w callback (inbox sock) in
      modify (fun s => with_sockets (<[w := with_inbox unread sock]> (sockets s)) s);;
      modify (fun s => with_trace (trace s ++ evs) s);;
      match failure with
      | Some e => set_progress t (Done (Raise e))
      | None =>
          if ws_closed sock then set_progress t (Done (Ok tt))
          else set_progress t (Suspended w)
      end
  end.

(** One turn of the event loop on task [t]. A cancelled task that has
    not finished gets [CancelledError] at the point where it waits (or
    before its first statement); a new [listen()] reads [self._ws] once,
    when it starts. *)
Definition run_task (t : nat) : M unit :=
  ts ← gets tasks;
  match ts !! t with
  | None => ret tt
  | Some task =>
      match progress task with
      | Done _ => ret tt
      | current =>
          if must_cancel task then set_progress t (Done (Raise CancelledError))
          else
            match coro task with
            | ws_close_coro w => ws_close w;; set_progress t (Done (Ok tt))
            | listen callback =>
                match current with
                | Suspended w => iterate t callback w
                | _ =>
                    ws ← gets _ws;
                    match ws with
                    | None => set_progress t (Done (Raise AssertionError))
                    | Some w => iterate t callback w
                    end
                end
            end
      end
  end.

(** The server pushes a text frame on socket [w]. *)
Definition frame_arrives (w : nat) (message : string) : M unit :=
  modify (fun s => with_sockets
    (alter (fun sock => if ws_closed sock then sock
                        else with_inbox (inbox sock ++ [message]) sock) w (sockets s)) s).

(** *** Schedules

    What happens in the process, one atomic piece after the other: the
    caller invokes a method, the loop resumes a task, a frame arrives. *)
Inductive action : Type :=
  | Connect
  | Disconnect
  | CreateEntry (data : json)
  | GetEntry (hash : EntryHash)
  | GetNodeInfo
  | Subscribe (callback : Entry -> option exn)
  | Unsubscribe (task : nat)
  | RunTask (task : nat)
  | FrameArrives (ws : nat) (message : string).

Definition exec {A} (m : M A) (s : state) : state := snd (m s).
Definition outcome {A} (m : M A) (s : state) : result A := fst (m s).

Definition step (a : action) (s : state) : state :=
  match a with
  | Connect => exec connect s
  | Disconnect => exec disconnect s
  | CreateEntry data => exec (create_entry data) s
  | GetEntry hash => exec (get_entry hash) s
  | GetNodeInfo => exec get_node_info s
  | Subscribe callback => exec (subscribe callback) s
  | Unsubscribe task => exec (unsubscribe task) s
  | RunTask task => exec (run_task task) s
  | FrameArrives ws message => exec (frame_arrives ws message) s
  end.

Definition run (schedule : list action) (s : state) : state :=
  fold_left (fun s a => step a s) schedule s.

(** ** Reading the state *)


(** The client's connection state: what its two handles hold. *)
Definition connection_state (s : state) : option nat * option nat :=
  (_http_client s, _ws s).

(** What holds of the client object in every state a program can
    reach ([wf]): [_http_client], when set, is an open client built
    from the configuration ([http_ok]), and [_ws], when set, is the
    socket opened last ([ws_ok]). *)
Definition http_ok (s : state) : Prop :=
  forall c, _http_client s = Some c ->
    http_clients s !! c
    = Some (mkAsyncClient (node_url (config s)) (timeout (config s)) false).

Definition ws_ok (s : state) : Prop :=
  forall w, _ws s = Some w -> S w = length (sockets s).

Definition wf (s : state) : Prop := http_ok s /\ ws_ok s.

(** The request a method sends from state [s], and what comes back. *)
Definition request_for (s : state) (m : method) (path : string) (body : option json) : Request :=
  mkRequest m (node_url (config s) ++ path) path body.

Definition answer (s : state) (m : method) (path : string) (body : option json) : http_outcome :=
  node (sent (trace s)) (request_for s m path body).

(** What [connect()] prints. *)
Definition connect_prints (s : state) : list event :=
  if debug (config s)
  then [EvPrint ("Connecting to " ++ node_url (config s))]
  else [].

(** The state once the lazy connect of a method has run. *)
Definition ensured (s : state) : state :=
  match _http_client s with
  | None => exec connect s
  | Some _ => s
  end.

(** The state once the method's request has gone out. *)
Definition posted (s : state) (m : method) (path : string) (body : option json) : state :=
  with_trace
    (trace (ensured s)
     ++ [EvRequest (default 0 (_http_client (ensured s))) (request_for s m path body)])
    (ensured s).

(** What the caller gets from the outcome of the exchange, [k] being
    what the method makes of a response. *)
Definition received {A} (o : http_outcome) (k : Response -> result A) : result A :=
  match o with
  | Responds response => k response
  | TimesOut => Raise httpx_TimeoutException
  | Refuses => Raise httpx_ConnectError
  | Breaks => Raise httpx_TransportError
  end.

(** [raise_for_status()] then [json()] then [k], as a value. *)
Definition checked_json {A} (r : Response) (k : json -> result A) : result A :=
  if is_success (status r) then
    match json_body r with
    | Some value => k value
    | None => Raise JSONDecodeError
    end
  else Raise (httpx_HTTPStatusError (status r)).

Definition create_entry_request (data : json) : method * string * option json :=
  (POST, "/api/v1/entries", Some (JObj [("data", data)])).

Definition get_entry_request (hash : EntryHash) : method * string * option json :=
  (GET, ("/api/v1/entries/" ++ hash)%string, None).

Definition get_node_info_request : method * string * option json :=
  (GET, "/api/v1/info", None).

Definition answer_to (s : state) (rq : method * string * option json) : http_outcome :=
  answer s rq.1.1 rq.1.2 rq.2.

Definition posted_to (s : state) (rq : method * string * option json) : state :=
  posted s rq.1.1 rq.1.2 rq.2.

(** The three HTTP operations of the facade, to state what they have
    in common. *)
Inductive operation : Type :=
  | OpCreateEntry (data : json)
  | OpGetEntry (hash : EntryHash)
  | OpGetNodeInfo.

Inductive value : Type :=
  | VHash (h : json)
  | VEntry (e : option Entry)
  | VNodeInfo (n : NodeInfo).

Definition call (op : operation) : M value :=
  match op with
  | OpCreateEntry data => h ← create_entry data; mret (VHash h)
  | OpGetEntry hash => e ← get_entry hash; mret (VEntry e)
  | OpGetNodeInfo => n ← get_node_info; mret (VNodeInfo n)
  end.

Definition request_of (op : operation) : method * string * option json :=
  match op with
  | OpCreateEntry data => create_entry_request data
  | OpGetEntry hash => get_entry_request hash
  | OpGetNodeInfo => get_node_info_request
  end.

(** [getattr(entry, name)] for the seven field names. *)
Definition Entry_getattr (e : Entry) (name : string) : option json :=
  if String.eqb name "hash" then Some (hash e)
  else if String.eqb name "author" then Some (author e)
  else if String.eqb name "parents" then Some (parents e)
  else if String.eqb name "data" then Some (data e)
  else if String.eqb name "timestamp" then Some (timestamp e)
  else if String.eqb name "sequence" then Some (sequence e)
  else if String.eqb name "signature" then Some (signature e)
  else None.

(** The conditions under which an operation is expected to succeed:
    the node answers, with a status and a body the operation accepts. *)
Definition normal_reply (op : operation) (r : Response) : bool :=
  match op with
  | OpCreateEntry _ =>
      is_success (status r)
      && match json_body r with
         | Some (JObj members) => has_key "hash" members
         | _ => false
         end
  | OpGetEntry _ =>
      (status r =? 404)%Z
      || is_success (status r)
         && match json_body r with
            | Some (JObj members) => kwargs_bind Entry_fields members
            | _ => false
            end
  | OpGetNodeInfo =>
      is_success (status r)
      && match json_body r with
         | Some (JObj members) => kwargs_bind NodeInfo_fields members
         | _ => false
         end
  end.

(** The tasks an invocation of the unsubscribe handle adds: one
    [close()] of the socket [_ws] holds at that moment. *)
Definition close_request (s : state) : list Task :=
  match _ws s with
  | Some w => [mkTask (ws_close_coro w) Created false]
  | None => []
  end.

(** What a resumed iteration leaves the task in. *)
Definition after_iteration (w : nat) (sock : WebSocket) (failure : option exn) : task_status :=
  match failure with
  | Some e => Done (Raise e)
  | None => if ws_closed sock then Done (Ok tt) else Suspended w
  end.

(** The socket a live listener iterates over when it is next resumed:
    the one it is suspended on or, when it has not started yet, the one
    [_ws] holds at that moment. *)
Definition listens_on (s : state) (task : Task) : option nat :=
  match progress task with
  | Suspended w => Some w
  | Created => _ws s
  | Done _ => None
  end.

(** The frame decodes to the entry and the callback returns on it. *)
Definition delivers (callback : Entry -> option exn) (message : string) (entry : Entry) : Prop :=
  exists entry_data,
    json_loads message = Some entry_data
    /\ Entry_init entry_data = Ok entry
    /\ callback entry = None.

(** What the listener does with one frame: read it, call the callback,
    see it return. *)
Definition processed (t w : nat) (frame : string * Entry) : list event :=
  [EvRecv t w frame.1; EvCall t frame.2; EvReturn t].

(** Task [t] is a listener with this callback, not cancelled, that will
    iterate over socket [w], and [w] is open with nothing unread. *)
Definition listening (s : state) (t w : nat) (callback : Entry -> option exn) : Prop :=
  (exists task,
     tasks s !! t = Some task
     /\ coro task = listen callback
     /\ must_cancel task = false
     /\ listens_on s task = Some w)
  /\ exists sock,
       sockets s !! w = Some sock /\ ws_closed sock = false /\ inbox sock = [].

(** An HTTP method touches neither the tasks nor the sockets nor
    [_ws], and the events it adds are no callback invocations and no
    socket closures. *)
Definition same_tasks_and_sockets (s s' : state) : Prop :=
  tasks s' = tasks s
  /\ sockets s' = sockets s
  /\ _ws s' = _ws s
  /\ calls (trace s') = calls (trace s)
  /\ forall w, close_calls w (trace s') = close_calls w (trace s).

(** The entries task [t] has passed to its callback, oldest first. *)
Definition calls_of (t : nat) (tr : list event) : list Entry :=
  omap (fun e => match e with
                 | EvCall t' entry => if Nat.eqb t' t then Some entry else None
                 | _ => None
                 end) tr.

(** One turn of the loop on task [t] changes the progress of [t] only,
    keeps the client object and the number of sockets, and adds events
    of task [t] only. *)
Definition turn_of (t : nat) (s s' : state) : Prop :=
  exists (p : Task -> Task) (evs : list event) (socks : list WebSocket),
    s' = mkState (config s) (_http_client s) (_ws s) (http_clients s) socks
           (alter p t (tasks s)) (trace s ++ evs)
    /\ length socks = length (sockets s)
    /\ (forall t', t' <> t -> calls_of t' evs = []).

(** Task [t] has finished or will get [CancelledError] when next resumed. *)
Definition cancelled (s : state) (t : nat) : Prop :=
  exists task,
    tasks s !! t = Some task
    /\ (must_cancel task = true \/ exists r, progress task = Done r).

(** The lines a trace records as printed, oldest first. *)
Definition prints (tr : list event) : list string :=
  omap (fun e => match e with EvPrint line => Some line | _ => None end) tr.

(** The frames task [t] has read, oldest first. *)
Definition recvs_of (t : nat) (tr : list event) : list string :=
  omap (fun e => match e with
                 | EvRecv t' _ message => if Nat.eqb t' t then Some message else None
                 | _ => None
                 end) tr.

(** What stops the listener at a frame, if anything does: the text is
    not JSON, the value does not construct an [Entry], or the callback
    raises. *)
Definition frame_failure (callback : Entry -> option exn) (message : string) : option exn :=
  match json_loads message with
  | None => Some JSONDecodeError
  | Some entry_data =>
      match Entry_init entry_data with
      | Raise e => Some e
      | Ok entry => callback entry
      end
  end.

(** The entry the callback is called with for a frame, when the frame
    gets that far. *)
Definition frame_entry (message : string) : list Entry :=
  match json_loads message with
  | None => []
  | Some entry_data =>
      match Entry_init entry_data with
      | Raise _ => []
      | Ok entry => [entry]
      end
  end.

(** [getattr(info, name)] for the seven field names. *)
Definition NodeInfo_getattr (n : NodeInfo) (name : string) : option json :=
  if String.eqb name "node_id" then Some (node_id n)
  else if String.eqb name "version" then Some (version n)
  else if String.eqb name "uptime" then Some (uptime n)
  else if String.eqb name "entries_count" then Some (entries_count n)
  else if String.eqb name "peers_count" then Some (peers_count n)
  else if String.eqb name "storage_backend" then Some (storage_backend n)
  else if String.eqb name "features" then Some (features n)
  else None.


(** A task that has not finished. *)
Definition unfinished (task : Task) : Prop := forall r, progress task <> Done r.

(** From [s] to [s'] the configuration is kept and, with [debug] off,
    nothing is printed. *)
Definition quiet (s s' : state) : Prop :=
  config s' = config s
  /\ (debug (config s) = false -> prints (trace s') = prints (trace s)).

(** The events a turn of the loop on task [t] can add. *)
Definition turn_event (t : nat) (e : event) : bool :=
  match e with
  | EvRecv t' _ _ | EvCall t' _ | EvReturn t' => Nat.eqb t' t
  | EvWsClose _ => true
  | _ => false
  end.

(** No field of the client and no task that has yet to run refers to
    socket [w] any more. *)
Definition left_behind (s : state) (w : nat) : Prop :=
  w < length (sockets s)
  /\ _ws s <> Some w
  /\ forall t task, tasks s !! t = Some task -> coro task = ws_close_coro w ->
       exists r, progress task = Done r.


(** No field of the client refers to the HTTP client [c] any more. *)
Definition replaced (s : state) (c : nat) : Prop :=
  http_ok s /\ c < length (http_clients s) /\ _http_client s <> Some c.

(** * Properties *)

(** ** Proof tools *)

Ltac unfold_py :=
  unfold step, exec, outcome, create_entry, get_entry, get_node_info,
    ensure_http_client, connect, disconnect, subscribe, unsubscribe,
    run_task, iterate, frame_arrives, send, aclose, ws_close,
    websockets_connect, create_task, task_cancel, httpx_AsyncClient,
    set_progress, emit, raise_for_status, response_json, lift, gets,
    modify, raise, mbind, M_bind, bind, mret, M_ret, ret.

(** ** connect and disconnect *)

Lemma connect_eq (s : state) :
  connect s =
  (Ok tt,
   mkState (config s) (Some (length (http_clients s))) (_ws s)
     (http_clients s
      ++ [mkAsyncClient (node_url (config s)) (timeout (config s)) false])
     (sockets s) (tasks s) (trace s ++ connect_prints s)).
Proof.
  unfold_py. unfold connect_prints. destruct s as [cfg h w hs ss ts tr]. simpl.
  destruct (debug cfg); simpl; rewrite ?app_nil_r; reflexivity.
Qed.


(** The object the first call created is not closed by the second: it
    stays in the heap, open, with no field of the client holding it. *)
Lemma connect_again_leaves_previous_client_open (s : state) :
  let s1 := exec connect s in
  let s2 := exec connect s1 in
  forall c, _http_client s1 = Some c ->
    _http_client s2 <> Some c
    /\ http_clients s2 !! c
       = Some (mkAsyncClient (node_url (config s)) (timeout (config s)) false).
Proof.
  cbv zeta. unfold exec. rewrite !connect_eq. simpl. intros c [= <-].
  split.
  - rewrite length_app. simpl. intros [=]. lia.
  - rewrite lookup_app_l by (rewrite length_app; simpl; lia).
    apply list_lookup_middle. reflexivity.
Qed.

Lemma disconnect_eq (s : state) :
  disconnect s =
  (Ok tt,
   mkState (config s) None None
     (match _http_client s with
      | Some c => alter close_client c (http_clients s)
      | None => http_clients s
      end)
     (match _ws s with
      | Some w => alter close_socket w (sockets s)
      | None => sockets s
      end)
     (tasks s)
     (trace s
      ++ match _http_client s with Some c => [EvAclose c] | None => [] end
      ++ match _ws s with Some w => [EvWsClose w] | None => [] end)).
Proof.
  unfold_py. destruct s as [cfg [c|] [w|] hs ss ts tr]; simpl;
    rewrite <- ?app_assoc, ?app_nil_r; reflexivity.
Qed.

(** C6. [disconnect()] never raises; it closes the HTTP client
    [_http_client] holds and the WebSocket [_ws] holds, and clears both
    fields, which is the connection state of a client just constructed;
    a second [disconnect()] right after raises nothing and changes
    nothing at all. *)
Theorem C6_disconnect_idempotent (s : state) :
  let s1 := exec disconnect s in
  outcome disconnect s = Ok tt
  /\ (forall c client, _http_client s = Some c -> http_clients s !! c = Some client ->
        http_clients s1 !! c = Some (close_client client)
        /\ is_closed (close_client client) = true)
  /\ (forall w sock, _ws s = Some w -> sockets s !! w = Some sock ->
        sockets s1 !! w = Some (close_socket sock)
        /\ ws_closed (close_socket sock) = true)
  /\ disconnect s1 = (Ok tt, s1)
  /\ (forall url wsurl t d,
        connection_state s1 = connection_state (AIngleClient_init url wsurl t d)).
Proof.
  cbv zeta. unfold exec, outcome. rewrite disconnect_eq. simpl.
  split; [reflexivity|]. split; [|split; [|split]].
  - intros c client -> Hc. rewrite list_lookup_alter_eq, Hc. split; reflexivity.
  - intros w sock -> Hw. rewrite list_lookup_alter_eq, Hw. split; reflexivity.
  - rewrite disconnect_eq. simpl. rewrite app_nil_r. reflexivity.
  - reflexivity.
Qed.

(** ** The HTTP methods *)

Lemma sent_app (tr1 tr2 : list event) : sent (tr1 ++ tr2) = sent tr1 ++ sent tr2.
Proof. unfold sent. apply omap_app. Qed.

Lemma sent_connect_prints (s : state) : sent (connect_prints s) = [].
Proof. unfold connect_prints. destruct (debug (config s)); reflexivity. Qed.

Lemma ensure_http_client_eq (s : state) :
  ensure_http_client s
  = (match _http_client (ensured s) with
     | Some c => Ok c
     | None => Raise AssertionError
     end, ensured s).
Proof.
  unfold ensure_http_client, ensured, exec.
  unfold mbind, M_bind, bind, gets. simpl.
  destruct (_http_client s) as [c|] eqn:Hc; simpl.
  - rewrite Hc. reflexivity.
  - rewrite connect_eq. reflexivity.
Qed.

Lemma ensured_spec (s : state) :
  http_ok s ->
  http_ok (ensured s)
  /\ config (ensured s) = config s
  /\ sent (trace (ensured s)) = sent (trace s)
  /\ _ws (ensured s) = _ws s
  /\ exists c, _http_client (ensured s) = Some c.
Proof.
  intros Hh. unfold ensured, exec.
  destruct (_http_client s) as [c|] eqn:Hc.
  - repeat split; eauto.
  - rewrite connect_eq. simpl. split; [|repeat split; simpl; eauto].
    + intros c [= <-]. apply list_lookup_middle. reflexivity.
    + rewrite sent_app, sent_connect_prints, app_nil_r. reflexivity.
Qed.

(** Every HTTP method has this shape: connect if needed, send one
    request, go on with the response. *)
Lemma request_eq {A} (s : state) (m : method) (path : string) (body : option json)
    (k : Response -> M A) :
  http_ok s ->
  (client ← ensure_http_client; response ← send client m path body; k response) s
  = match answer s m path body with
    | Responds response => k response (posted s m path body)
    | TimesOut => (Raise httpx_TimeoutException, posted s m path body)
    | Refuses => (Raise httpx_ConnectError, posted s m path body)
    | Breaks => (Raise httpx_TransportError, posted s m path body)
    end.
Proof.
  intros Hwf. destruct (ensured_spec s Hwf) as (Hh & Hcfg & Hsent & _ & c & Hc).
  unfold mbind at 1. unfold M_bind, bind. rewrite ensure_http_client_eq, Hc.
  specialize (Hh c Hc). rewrite Hcfg in Hh.
  unfold answer, posted, request_for. rewrite Hc. simpl.
  unfold send, mbind, M_bind, bind, gets, emit, modify, raise, ret. simpl.
  rewrite Hh. simpl. rewrite Hsent.
  destruct (node _ _); reflexivity.
Qed.

Lemma create_entry_eq (s : state) (data : json) :
  http_ok s ->
  create_entry data s
  = (received (answer_to s (create_entry_request data))
       (fun r => checked_json r (fun value => subscript value "hash")),
     posted_to s (create_entry_request data)).
Proof.
  intros Hwf. unfold create_entry. rewrite request_eq by assumption.
  unfold answer_to, posted_to, create_entry_request, received, checked_json. simpl.
  destruct (answer _ _ _ _) as [r| | |]; try reflexivity.
  unfold_py. destruct (is_success (status r)); simpl; [|reflexivity].
  destruct (json_body r); reflexivity.
Qed.

Lemma get_entry_eq (s : state) (hash : EntryHash) :
  http_ok s ->
  get_entry hash s
  = (received (answer_to s (get_entry_request hash))
       (fun r => if (status r =? 404)%Z then Ok None
                 else checked_json r (fun value =>
                        match Entry_init value with
                        | Ok entry => Ok (Some entry)
                        | Raise e => Raise e
                        end)),
     posted_to s (get_entry_request hash)).
Proof.
  intros Hwf. unfold get_entry. rewrite request_eq by assumption.
  unfold answer_to, posted_to, get_entry_request, received, checked_json. simpl.
  destruct (answer _ _ _ _) as [r| | |]; try reflexivity.
  destruct (status r =? 404)%Z; [reflexivity|].
  unfold_py. destruct (is_success (status r)); simpl; [|reflexivity].
  destruct (json_body r) as [value|]; simpl; [|reflexivity].
  destruct (Entry_init value); reflexivity.
Qed.

Lemma get_node_info_eq (s : state) :
  http_ok s ->
  get_node_info s
  = (received (answer_to s get_node_info_request)
       (fun r => checked_json r NodeInfo_init),
     posted_to s get_node_info_request).
Proof.
  intros Hwf. unfold get_node_info. rewrite request_eq by assumption.
  unfold answer_to, posted_to, get_node_info_request, received, checked_json. simpl.
  destruct (answer _ _ _ _) as [r| | |]; try reflexivity.
  unfold_py. destruct (is_success (status r)); simpl; [|reflexivity].
  destruct (json_body r) as [value|]; simpl; reflexivity.
Qed.

Lemma call_state (op : operation) (s : state) :
  http_ok s -> exec (call op) s = posted_to s (request_of op).
Proof.
  intros Hwf. unfold exec, call.
  destruct op; unfold mbind, M_bind, bind;
    rewrite ?create_entry_eq, ?get_entry_eq, ?get_node_info_eq by assumption;
    simpl; destruct (received _ _); reflexivity.
Qed.

Lemma received_inv {A} (o : http_outcome) (k : Response -> result A) (e : exn) :
  received o k = Raise e ->
  (exists r, o = Responds r /\ k r = Raise e)
  \/ (o = TimesOut /\ e = httpx_TimeoutException)
  \/ (o = Refuses /\ e = httpx_ConnectError)
  \/ (o = Breaks /\ e = httpx_TransportError).
Proof. destruct o; simpl; intros H; [eauto|..]; injection H as <-; auto. Qed.

Lemma checked_json_raises {A} (r : Response) (k : json -> result A) (e : exn) :
  checked_json r k = Raise e ->
  (forall v e', k v = Raise e' -> error_kind e' = None) ->
  error_kind e = None.
Proof.
  unfold checked_json. intros H Hk.
  destruct (is_success (status r)); [|injection H as <-; reflexivity].
  destruct (json_body r) as [v|]; [eauto|injection H as <-; reflexivity].
Qed.

Lemma subscript_raises (v : json) (key : string) (e : exn) :
  subscript v key = Raise e -> error_kind e = None.
Proof.
  unfold subscript. destruct v; try (intros [= <-]; reflexivity).
  destruct (dict_get key members); intros [= <-]. reflexivity.
Qed.

Lemma Entry_init_raises (v : json) (e : exn) :
  Entry_init v = Raise e -> e = TypeError.
Proof.
  unfold Entry_init. destruct v; try (intros [= <-]; reflexivity).
  destruct (kwargs_bind _ _); intros [= <-]. reflexivity.
Qed.

Lemma NodeInfo_init_raises (v : json) (e : exn) :
  NodeInfo_init v = Raise e -> e = TypeError.
Proof.
  unfold NodeInfo_init. destruct v; try (intros [= <-]; reflexivity).
  destruct (kwargs_bind _ _); intros [= <-]. reflexivity.
Qed.

Lemma call_outcome_raises (op : operation) (s : state) (e : exn) :
  http_ok s ->
  outcome (call op) s = Raise e ->
  error_kind e = None.
Proof.
  intros Hok. unfold outcome, call.
  destruct op; unfold mbind, M_bind, bind;
    rewrite ?create_entry_eq, ?get_entry_eq, ?get_node_info_eq by assumption;
    simpl.
  - destruct (received _ _) eqn:Hr; simpl; [discriminate|]. intros [= ->].
    apply received_inv in Hr as [(r & _ & Hk)|[[_ ->]|[[_ ->]|[_ ->]]]]; try reflexivity.
    eapply checked_json_raises; [exact Hk|]. intros v e'. apply subscript_raises.
  - destruct (received _ _) eqn:Hr; simpl; [discriminate|]. intros [= ->].
    apply received_inv in Hr as [(r & _ & Hk)|[[_ ->]|[[_ ->]|[_ ->]]]]; try reflexivity.
    destruct (status r =? 404)%Z; [discriminate|].
    eapply checked_json_raises; [exact Hk|]. intros v e'. simpl.
    destruct (Entry_init v) eqn:Hv; [discriminate|]. intros [= <-].
    apply Entry_init_raises in Hv as ->. reflexivity.
  - destruct (received _ _) eqn:Hr; simpl; [discriminate|]. intros [= ->].
    apply received_inv in Hr as [(r & _ & Hk)|[[_ ->]|[[_ ->]|[_ ->]]]]; try reflexivity.
    eapply checked_json_raises; [exact Hk|]. intros v e' Hv.
    apply NodeInfo_init_raises in Hv as ->. reflexivity.
Qed.

Lemma call_outcome_transport (op : operation) (s : state) (e : exn) :
  http_ok s ->
  match answer_to s (request_of op) with
  | Responds r =>
      is_success (status r) = false /\ status r <> 404%Z
      /\ e = httpx_HTTPStatusError (status r)
  | TimesOut => e = httpx_TimeoutException
  | Refuses => e = httpx_ConnectError
  | Breaks => e = httpx_TransportError
  end ->
  outcome (call op) s = Raise e.
Proof.
  intros Hok Hans. unfold outcome, call.
  destruct op; unfold mbind, M_bind, bind;
    rewrite ?create_entry_eq, ?get_entry_eq, ?get_node_info_eq by assumption;
    simpl in *;
    destruct (answer_to _ _) as [r| | |]; simpl in *;
    try (subst e; reflexivity);
    destruct Hans as (Hs & H404 & ->);
    unfold checked_json; rewrite ?Hs;
    try (apply Z.eqb_neq in H404; rewrite H404); reflexivity.
Qed.

(** C1, as the code has it. A failing HTTP operation raises the
    exception of the library call that failed, untranslated: a request
    that times out raises httpx's [TimeoutException], a refused
    connection its [ConnectError], a 500 or a 401 response the
    [HTTPStatusError] of [raise_for_status()] carrying that status; no
    exception the three operations raise is an [AIngleError], so none
    carries one of the seven kinds. *)
Theorem C1_failures_are_library_exceptions (op : operation) (s : state) :
  http_ok s ->
  (answer_to s (request_of op) = TimesOut ->
     outcome (call op) s = Raise httpx_TimeoutException)
  /\ (answer_to s (request_of op) = Refuses ->
        outcome (call op) s = Raise httpx_ConnectError)
  /\ (forall r, answer_to s (request_of op) = Responds r -> status r = 500%Z ->
        outcome (call op) s = Raise (httpx_HTTPStatusError 500))
  /\ (forall r, answer_to s (request_of op) = Responds r -> status r = 401%Z ->
        outcome (call op) s = Raise (httpx_HTTPStatusError 401))
  /\ (forall e, outcome (call op) s = Raise e -> error_kind e = None).
Proof.
  intros Hok. repeat split.
  - intros H. apply call_outcome_transport; [assumption|]. rewrite H. reflexivity.
  - intros H. apply call_outcome_transport; [assumption|]. rewrite H. reflexivity.
  - intros r H Hs. apply call_outcome_transport; [assumption|]. rewrite H, Hs.
    repeat split; try reflexivity; lia.
  - intros r H Hs. apply call_outcome_transport; [assumption|]. rewrite H, Hs.
    repeat split; try reflexivity; lia.
  - intros e. apply call_outcome_raises. assumption.
Qed.



(** ** Keyword binding *)

Lemma dict_get_None (key : string) (members : list (string * json)) :
  dict_get key members = None <-> has_key key members = false.
Proof using Type.
  unfold has_key, dict_keys. induction members as [|[k v] rest IH]; simpl.
  - split; reflexivity.
  - rewrite (String.eqb_sym key k). destruct (String.eqb k key); simpl.
    + split; [destruct (dict_get key rest)|]; discriminate.
    + rewrite <- IH. destruct (dict_get key rest); split; intros H;
        first [discriminate H | reflexivity].
Qed.

Lemma existsb_eqb_In (k : string) (names : list string) :
  existsb (String.eqb k) names = true <-> In k names.
Proof.
  rewrite existsb_exists. split.
  - intros (x & Hin & Heq). apply String.eqb_eq in Heq. congruence.
  - intros Hin. exists k. split; [assumption|apply String.eqb_refl].
Qed.

Lemma kwargs_bind_true (fields : list string) (members : list (string * json)) :
  kwargs_bind fields members = true <->
  (forall f, In f fields -> exists v, dict_get f members = Some v)
  /\ (forall k, In k (dict_keys members) -> In k fields).
Proof using Type.
  unfold kwargs_bind. rewrite andb_true_iff, !forallb_forall.
  split; intros [H1 H2]; split.
  - intros f Hf. specialize (H1 f Hf).
    destruct (dict_get f members) eqn:Hg; [eauto|].
    apply dict_get_None in Hg. congruence.
  - intros k Hk. apply existsb_eqb_In. auto.
  - intros f Hf. destruct (H1 f Hf) as [v Hv].
    destruct (has_key f members) eqn:Hk; [reflexivity|].
    apply dict_get_None in Hk. congruence.
  - intros k Hk. apply existsb_eqb_In. auto.
Qed.

Lemma kwargs_bind_false (fields : list string) (members : list (string * json)) :
  (exists f, In f fields /\ dict_get f members = None)
  \/ (exists k, In k (dict_keys members) /\ ~ In k fields) ->
  kwargs_bind fields members = false.
Proof using Type.
  intros H. destruct (kwargs_bind fields members) eqn:Hb; [|reflexivity].
  apply kwargs_bind_true in Hb as [H1 H2].
  destruct H as [(f & Hf & Hnone)|(k & Hk & Hnot)].
  - destruct (H1 f Hf) as [v Hv]. congruence.
  - exfalso. auto.
Qed.

Lemma Entry_init_fields (members : list (string * json)) :
  kwargs_bind Entry_fields members = true ->
  exists e, Entry_init (JObj members) = Ok e
    /\ forall f, In f Entry_fields -> Entry_getattr e f = dict_get f members.
Proof using Type.
  intros Hb. unfold Entry_init. rewrite Hb. eexists. split; [reflexivity|].
  apply kwargs_bind_true in Hb as [H1 _].
  intros f Hf. destruct (H1 f Hf) as [v Hv].
  simpl in Hf. unfold field.
  repeat (destruct Hf as [<-|Hf]; [rewrite Hv; reflexivity|]).
  destruct Hf.
Qed.

(** C3, as the code has it. [get_entry(hash)] returns [None] exactly
    when the node answers the GET with status 404. On a 2xx response
    whose body is an object with exactly the seven [Entry] keys it
    returns an [Entry] each of whose fields is the body's member of that
    name, whatever the type of the value: nothing checks the types. When
    a key is missing ([missing]) or a key is not a field ([unexpected]),
    the constructor raises Python's [TypeError], not an error of the
    SDK. *)
Theorem C3_get_entry_none_iff_404_and_fields (s : state) (h : EntryHash) :
  http_ok s ->
  let rq :=
    mkRequest GET (node_url (config s) ++ ("/api/v1/entries/" ++ h))
      ("/api/v1/entries/" ++ h) None in
  (outcome (get_entry h) s = Ok None
   <-> exists r, node (sent (trace s)) rq = Responds r /\ status r = 404%Z)
  /\ (forall r members,
        node (sent (trace s)) rq = Responds r ->
        is_success (status r) = true ->
        json_body r = Some (JObj members) ->
        (kwargs_bind Entry_fields members = true ->
           exists e, outcome (get_entry h) s = Ok (Some e)
             /\ forall f, In f Entry_fields ->
                  Entry_getattr e f = dict_get f members
                  /\ is_Some (dict_get f members))
        /\ (forall missing, In missing Entry_fields ->
              dict_get missing members = None ->
              outcome (get_entry h) s = Raise TypeError)
        /\ (forall unexpected, In unexpected (dict_keys members) ->
              ~ In unexpected Entry_fields ->
              outcome (get_entry h) s = Raise TypeError)).
Proof.
  intros Hok rq. unfold outcome. rewrite get_entry_eq by assumption.
  unfold answer_to, get_entry_request, answer, request_for. simpl. fold rq.
  split.
  - split.
    + destruct (node (sent (trace s)) rq) as [r| | |]; simpl; try discriminate.
      destruct (status r =? 404)%Z eqn:H404.
      * intros _. exists r. split; [reflexivity|]. apply Z.eqb_eq. assumption.
      * unfold checked_json. destruct (is_success (status r)); [|discriminate].
        destruct (json_body r) as [v|]; [|discriminate].
        destruct (Entry_init v); discriminate.
    + intros (r & -> & Hs). simpl. rewrite Hs. reflexivity.
  - intros r members -> Hs Hb. simpl.
    assert ((status r =? 404)%Z = false) as ->.
    { apply Z.eqb_neq. intros H404. rewrite H404 in Hs. discriminate. }
    unfold checked_json. rewrite Hs, Hb. split; [|split].
    + intros Hbind. destruct (Entry_init_fields members Hbind) as (e & -> & Hf).
      exists e. split; [reflexivity|]. intros f Hin. split; [auto|].
      apply kwargs_bind_true in Hbind as [H1 _]. destruct (H1 f Hin) as [v ->].
      exists v. reflexivity.
    + intros f Hin Hnone. unfold Entry_init.
      rewrite kwargs_bind_false; [reflexivity|]. left. exists f. split; assumption.
    + intros k Hin Hnot. unfold Entry_init.
      rewrite kwargs_bind_false; [reflexivity|]. right. exists k. split; assumption.
Qed.

(** ** Lazy connect *)

Lemma http_ok_unconnected (s : state) : _http_client s = None -> http_ok s.
Proof. intros H c Hc. congruence. Qed.

Lemma unconnected_ensured (s : state) :
  _http_client s = None ->
  ensured s = exec connect s
  /\ ensured (exec connect s) = exec connect s
  /\ http_ok (exec connect s)
  /\ (forall rq, answer_to (exec connect s) rq = answer_to s rq)
  /\ (forall rq, posted_to (exec connect s) rq = posted_to s rq).
Proof.
  intros Hnone.
  assert (ensured s = exec connect s) as E1 by (unfold ensured; rewrite Hnone; reflexivity).
  assert (ensured (exec connect s) = exec connect s) as E2.
  { unfold ensured, exec. rewrite connect_eq. reflexivity. }
  destruct (ensured_spec s (http_ok_unconnected s Hnone)) as (Hok & Hcfg & Hsent & _).
  rewrite E1 in Hok, Hcfg, Hsent.
  repeat split; try assumption.
  - intros rq. unfold answer_to, answer, request_for. rewrite Hcfg, Hsent. reflexivity.
  - intros rq. unfold posted_to, posted, request_for. rewrite E2, E1, Hcfg. reflexivity.
Qed.

Lemma call_eq (op : operation) (s : state) :
  http_ok s ->
  call op s
  = (match op with
     | OpCreateEntry data =>
         received (answer_to s (request_of op))
           (fun r => checked_json r (fun v =>
              match subscript v "hash" with Ok h => Ok (VHash h) | Raise e => Raise e end))
     | OpGetEntry hash =>
         received (answer_to s (request_of op))
           (fun r => if (status r =? 404)%Z then Ok (VEntry None)
                     else checked_json r (fun v =>
                       match Entry_init v with
                       | Ok e => Ok (VEntry (Some e))
                       | Raise e => Raise e
                       end))
     | OpGetNodeInfo =>
         received (answer_to s (request_of op))
           (fun r => checked_json r (fun v =>
              match NodeInfo_init v with Ok n => Ok (VNodeInfo n) | Raise e => Raise e end))
     end, posted_to s (request_of op)).
Proof.
  intros Hok. unfold call.
  destruct op; unfold mbind, M_bind, bind;
    rewrite ?create_entry_eq, ?get_entry_eq, ?get_node_info_eq by assumption;
    simpl; destruct (answer_to _ _) as [r| | |]; simpl; try reflexivity;
    unfold checked_json;
    try destruct (status r =? 404)%Z; try reflexivity;
    destruct (is_success (status r)); try reflexivity;
    destruct (json_body r) as [v|]; try reflexivity;
    match goal with
    | |- context [subscript v ?k] => destruct (subscript v k)
    | |- context [Entry_init v] => destruct (Entry_init v)
    | |- context [NodeInfo_init v] => destruct (NodeInfo_init v)
    end;
    reflexivity.
Qed.

(** C4. On a client whose [_http_client] is not set, each of
    [create_entry], [get_entry] and [get_node_info] does what
    [connect()] followed by the same call does, result and state, and
    leaves the client connected; when the node then answers with a
    status and a body the operation accepts, the call returns a value. *)
Theorem C4_lazy_connect (op : operation) (s : state) :
  _http_client s = None ->
  call op s = (connect;; call op) s
  /\ _http_client (exec (call op) s) = _http_client (exec connect s)
  /\ (forall r, answer_to s (request_of op) = Responds r ->
        normal_reply op r = true ->
        exists v, outcome (call op) s = Ok v).
Proof.
  intros Hnone.
  destruct (unconnected_ensured s Hnone) as (E1 & E2 & Hok' & Hans & Hpost).
  pose proof (http_ok_unconnected s Hnone) as Hok.
  split; [|split].
  - unfold mbind at 1. unfold M_bind, bind.
    unfold exec in Hok', Hans, Hpost. rewrite connect_eq in Hok', Hans, Hpost |- *.
    simpl in Hok', Hans, Hpost. rewrite !call_eq by assumption.
    rewrite Hans, Hpost. reflexivity.
  - unfold exec at 1. rewrite call_eq by assumption. simpl.
    unfold posted_to, posted. rewrite E1. reflexivity.
  - intros r Hr Hn. unfold outcome. rewrite call_eq by assumption. simpl.
    rewrite Hr. destruct op; simpl in *; unfold checked_json.
    + apply andb_true_iff in Hn as [-> Hb].
      destruct (json_body r) as [[| | | | | |members]|]; try discriminate.
      simpl. destruct (dict_get "hash" members) eqn:Hg; [eauto|].
      apply dict_get_None in Hg. congruence.
    + destruct (status r =? 404)%Z; [eauto|]. simpl in Hn.
      apply andb_true_iff in Hn as [-> Hb].
      destruct (json_body r) as [[| | | | | |members]|]; try discriminate.
      simpl. rewrite Hb. eauto.
    + apply andb_true_iff in Hn as [-> Hb].
      destruct (json_body r) as [[| | | | | |members]|]; try discriminate.
      simpl. rewrite Hb. eauto.
Qed.

(** ** subscribe, unsubscribe and the listener *)

Lemma subscribe_eq (s : state) (callback : Entry -> option exn) :
  subscribe callback s =
  if ws_accepts (ws_url (config s)) then
    (Ok (length (tasks s)),
     mkState (config s) (_http_client s) (Some (length (sockets s))) (http_clients s)
       (sockets s ++ [mkWebSocket (ws_url (config s)) false []])
       (tasks s ++ [mkTask (listen callback) Created false])
       (trace s ++ [EvWsOpen (length (sockets s))]))
  else (Raise ws_ConnectionRefused, s).
Proof.
  unfold_py. simpl. destruct (ws_accepts (ws_url (config s))); reflexivity.
Qed.

Lemma unsubscribe_eq (s : state) (t : nat) :
  unsubscribe t s =
  (Ok tt, with_tasks (alter request_cancel t (tasks s) ++ close_request s) s).
Proof.
  unfold_py. unfold close_request. simpl. destruct s as [cfg h [w|] hs ss ts tr]; simpl;
    rewrite ?app_nil_r; reflexivity.
Qed.

Lemma frame_arrives_eq (s : state) (w : nat) (message : string) :
  frame_arrives w message s =
  (Ok tt,
   with_sockets
     (alter (fun sock => if ws_closed sock then sock
                         else with_inbox (inbox sock ++ [message]) sock) w (sockets s)) s).
Proof. reflexivity. Qed.

Lemma iterate_eq (s : state) (t w : nat) (callback : Entry -> option exn) (sock : WebSocket) :
  sockets s !! w = Some sock ->
  iterate t callback w s =
  (Ok tt,
   let '(evs, failure, unread) := listen_loop t w callback (inbox sock) in
   mkState (config s) (_http_client s) (_ws s) (http_clients s)
     (<[w := with_inbox unread sock]> (sockets s))
     (alter (with_progress (after_iteration w sock failure)) t (tasks s))
     (trace s ++ evs)).
Proof.
  intros Hw. unfold iterate, mbind, M_bind, bind, gets. simpl. rewrite Hw.
  destruct (listen_loop t w callback (inbox sock)) as [[evs failure] unread].
  unfold_py. simpl. unfold after_iteration.
  destruct failure; [reflexivity|]. destruct (ws_closed sock); reflexivity.
Qed.

Lemma run_task_close_eq (s : state) (t w : nat) (p : task_status) :
  tasks s !! t = Some (mkTask (ws_close_coro w) p false) ->
  (forall r, p <> Done r) ->
  run_task t s =
  (Ok tt,
   mkState (config s) (_http_client s) (_ws s) (http_clients s)
     (alter close_socket w (sockets s))
     (alter (with_progress (Done (Ok tt))) t (tasks s))
     (trace s ++ [EvWsClose w])).
Proof.
  intros Ht Hp. unfold run_task, mbind, M_bind, bind, gets. simpl. rewrite Ht. simpl.
  destruct p; try reflexivity. exfalso. eapply Hp. reflexivity.
Qed.

Lemma run_task_cancelled_eq (s : state) (t : nat) (task : Task) :
  tasks s !! t = Some task ->
  must_cancel task = true ->
  (forall r, progress task <> Done r) ->
  run_task t s =
  (Ok tt, with_tasks (alter (with_progress (Done (Raise CancelledError))) t (tasks s)) s).
Proof.
  intros Ht Hc Hp. unfold run_task, mbind, M_bind, bind, gets. simpl. rewrite Ht.
  destruct (progress task) eqn:E; rewrite ?Hc; try reflexivity.
  exfalso. eapply Hp. reflexivity.
Qed.

Lemma run_task_done_eq (s : state) (t : nat) :
  match tasks s !! t with
  | Some task => exists r, progress task = Done r
  | None => True
  end ->
  run_task t s = (Ok tt, s).
Proof.
  intros Ht. unfold run_task, mbind, M_bind, bind, gets. simpl.
  destruct (tasks s !! t) as [task|]; [|reflexivity].
  destruct Ht as [r ->]. reflexivity.
Qed.

Lemma run_task_listen_eq (s : state) (t w : nat) (callback : Entry -> option exn)
    (task : Task) (sock : WebSocket) :
  tasks s !! t = Some task ->
  coro task = listen callback ->
  must_cancel task = false ->
  listens_on s task = Some w ->
  sockets s !! w = Some sock ->
  run_task t s = iterate t callback w s.
Proof.
  intros Ht Hco Hc Hon Hw. unfold listens_on in Hon.
  unfold run_task, mbind at 1. unfold M_bind, bind, gets. simpl. rewrite Ht.
  destruct (progress task) eqn:E; try discriminate; rewrite Hc, Hco.
  - unfold mbind, M_bind, bind. simpl. rewrite Hon. reflexivity.
  - injection Hon as ->. reflexivity.
Qed.

(** ** Frames are processed in arrival order *)

Lemma listen_loop_delivers (t w : nat) (callback : Entry -> option exn)
    (frames : list string) (entries : list Entry) :
  Forall2 (delivers callback) frames entries ->
  listen_loop t w callback frames
  = (flat_map (processed t w) (zip frames entries), None, []).
Proof.
  induction 1 as [|message entry frames entries (j & Hj & He & Hcb) _ IH]; simpl.
  - reflexivity.
  - rewrite Hj, He, Hcb, IH. reflexivity.
Qed.

Lemma calls_app (tr1 tr2 : list event) : calls (tr1 ++ tr2) = calls tr1 ++ calls tr2.
Proof. unfold calls. apply omap_app. Qed.

Lemma calls_processed (t w : nat) (frames : list string) (entries : list Entry) :
  length frames = length entries ->
  calls (flat_map (processed t w) (zip frames entries)) = map (fun e => (t, e)) entries.
Proof.
  revert entries. induction frames as [|m frames IH]; intros [|e entries] Hlen;
    simpl in *; try discriminate; try reflexivity.
  f_equal. apply IH. lia.
Qed.

Lemma run_app (sch1 sch2 : list action) (s : state) :
  run (sch1 ++ sch2) s = run sch2 (run sch1 s).
Proof. unfold run. apply fold_left_app. Qed.

Lemma arrivals (frames : list string) (s : state) (w : nat) (sock : WebSocket) :
  sockets s !! w = Some sock ->
  ws_closed sock = false ->
  let s' := run (map (FrameArrives w) frames) s in
  sockets s' !! w = Some (with_inbox (inbox sock ++ frames) sock)
  /\ tasks s' = tasks s /\ trace s' = trace s /\ _ws s' = _ws s.
Proof.
  revert s sock. induction frames as [|m frames IH]; intros s sock Hw Hopen; simpl.
  - rewrite app_nil_r. destruct sock. auto.
  - unfold exec. rewrite frame_arrives_eq. simpl.
    set (s1 := with_sockets _ s).
    assert (sockets s1 !! w = Some (with_inbox (inbox sock ++ [m]) sock)) as Hw1.
    { unfold s1. simpl. rewrite list_lookup_alter_eq, Hw. simpl. rewrite Hopen. reflexivity. }
    destruct (IH s1 _ Hw1 Hopen) as (Hs & Ht & Htr & Hws).
    fold (run (map (FrameArrives w) frames) s1).
    rewrite Hs, Ht, Htr, Hws. simpl. rewrite <- app_assoc. auto.
Qed.

Lemma resume_delivers (s : state) (t w : nat) (callback : Entry -> option exn)
    (task : Task) (sock : WebSocket) (entries : list Entry) :
  tasks s !! t = Some task ->
  coro task = listen callback ->
  must_cancel task = false ->
  listens_on s task = Some w ->
  sockets s !! w = Some sock ->
  ws_closed sock = false ->
  Forall2 (delivers callback) (inbox sock) entries ->
  let s' := exec (run_task t) s in
  trace s' = trace s ++ flat_map (processed t w) (zip (inbox sock) entries)
  /\ listening s' t w callback.
Proof.
  intros Ht Hco Hc Hon Hw Hopen Hdel. cbv zeta. unfold exec.
  rewrite (run_task_listen_eq s t w callback task sock) by assumption.
  rewrite (iterate_eq s t w callback sock) by assumption.
  rewrite (listen_loop_delivers _ _ _ _ _ Hdel). simpl.
  split; [reflexivity|]. split.
  - exists (with_progress (Suspended w) task). simpl.
    rewrite list_lookup_alter_eq, Ht. unfold after_iteration. rewrite Hopen.
    repeat split; assumption.
  - exists (with_inbox [] sock). simpl.
    rewrite list_lookup_insert_eq by (eapply lookup_lt_Some; eassumption).
    repeat split; assumption.
Qed.

(** C8. A listener that is not cancelled processes the frames of its
    socket in the order they arrive, one at a time, however arrivals and
    turns of the event loop alternate: when every frame decodes to an
    entry on which the callback returns, the events added to the trace
    are, frame after frame, the read of the frame, the call of the
    callback with its entry and the callback's return, so the next read
    comes after the previous return and the callback sees the entries
    in arrival order. *)
Theorem C8_frames_in_arrival_order (batches : list (list string)) (s : state) (t w : nat)
    (callback : Entry -> option exn) (entries : list Entry) :
  listening s t w callback ->
  Forall2 (delivers callback) (concat batches) entries ->
  let schedule :=
    concat (map (fun batch => map (FrameArrives w) batch ++ [RunTask t]) batches) in
  trace (run schedule s)
  = trace s ++ flat_map (processed t w) (zip (concat batches) entries)
  /\ calls (trace (run schedule s))
     = calls (trace s) ++ map (fun e => (t, e)) entries.
Proof.
  intros Hl Hdel. cbv zeta.
  assert (trace (run (concat (map (fun batch => map (FrameArrives w) batch ++ [RunTask t])
                                 batches)) s)
          = trace s ++ flat_map (processed t w) (zip (concat batches) entries)) as Htr.
  { revert s entries Hl Hdel.
    induction batches as [|batch batches IH]; intros s entries Hl Hdel; simpl in *.
    - apply Forall2_nil_inv_l in Hdel as ->. rewrite app_nil_r. reflexivity.
    - apply Forall2_app_inv_l in Hdel as (es1 & es2 & Hd1 & Hd2 & ->).
      destruct Hl as [(task & Ht & Hco & Hc & Hon) (sock & Hw & Hopen & Hin)].
      rewrite !run_app.
      destruct (arrivals batch s w sock Hw Hopen) as (Hw1 & Ht1 & Htr1 & Hws1).
      set (s1 := run (map (FrameArrives w) batch) s) in *.
      rewrite Hin in Hw1. simpl in Hw1.
      assert (listens_on s1 task = Some w) as Hon1.
      { unfold listens_on in *. rewrite Hws1. assumption. }
      rewrite <- Ht1 in Ht.
      destruct (resume_delivers s1 t w callback task _ es1 Ht Hco Hc Hon1 Hw1 Hopen Hd1)
        as (Htr2 & Hl2).
      simpl. fold (exec (run_task t) s1).
      rewrite (IH _ es2 Hl2 Hd2), Htr2, Htr1. simpl.
      rewrite <- app_assoc. f_equal.
      rewrite zip_with_app by (eapply Forall2_length; eassumption).
      rewrite flat_map_app. reflexivity. }
  split; [assumption|].
  rewrite Htr, calls_app. f_equal. apply calls_processed.
  eapply Forall2_length. eassumption.
Qed.

(** ** What each action leaves alone *)

Lemma close_calls_app (w : nat) (tr1 tr2 : list event) :
  close_calls w (tr1 ++ tr2) = close_calls w tr1 + close_calls w tr2.
Proof. unfold close_calls. rewrite List.filter_app, length_app. reflexivity. Qed.

Ltac same_frame :=
  repeat split; simpl;
  rewrite ?calls_app, ?close_calls_app; simpl;
  rewrite ?app_nil_r, ?Nat.add_0_r; try reflexivity.

Lemma connect_frame (s : state) : same_tasks_and_sockets s (exec connect s).
Proof.
  unfold exec. rewrite connect_eq. unfold connect_prints.
  destruct (debug (config s)); same_frame; intros w; same_frame.
Qed.

Lemma same_tasks_and_sockets_trans (s1 s2 s3 : state) :
  same_tasks_and_sockets s1 s2 -> same_tasks_and_sockets s2 s3 ->
  same_tasks_and_sockets s1 s3.
Proof.
  intros (A1 & A2 & A3 & A4 & A5) (B1 & B2 & B3 & B4 & B5).
  repeat split; try congruence; intros w; rewrite B5; apply A5.
Qed.

Lemma same_tasks_and_sockets_refl (s : state) : same_tasks_and_sockets s s.
Proof. repeat split. Qed.

Lemma ensured_frame (s : state) : same_tasks_and_sockets s (ensured s).
Proof.
  unfold ensured. destruct (_http_client s);
    [apply same_tasks_and_sockets_refl|apply connect_frame].
Qed.

Lemma send_frame (s : state) (c : nat) (m : method) (path : string) (body : option json) :
  same_tasks_and_sockets s (exec (send c m path body) s).
Proof.
  unfold exec, send, mbind, M_bind, bind, gets, emit, modify, raise, ret. simpl.
  destruct (http_clients s !! c) as [client|]; simpl;
    [|apply same_tasks_and_sockets_refl].
  destruct (is_closed client); simpl; [apply same_tasks_and_sockets_refl|].
  destruct (node _ _); simpl; same_frame; intros w; same_frame.
Qed.

(** The shape shared by the three methods, without any assumption on
    the state: after the request nothing changes the state any more. *)
Lemma request_frame {A} (s : state) (m : method) (path : string) (body : option json)
    (k : Response -> M A) :
  (forall r s0, exec (k r) s0 = s0) ->
  same_tasks_and_sockets s
    (exec (client ← ensure_http_client; response ← send client m path body; k response) s).
Proof.
  intros Hk. unfold exec, mbind at 1. unfold M_bind, bind.
  rewrite ensure_http_client_eq.
  destruct (_http_client (ensured s)) as [c|]; simpl; [|apply ensured_frame].
  eapply same_tasks_and_sockets_trans; [apply ensured_frame|].
  pose proof (send_frame (ensured s) c m path body) as Hs.
  unfold exec in Hs. unfold mbind, M_bind, bind.
  destruct (send c m path body (ensured s)) as [[r|e] s1]; simpl in *; [|assumption].
  specialize (Hk r s1). unfold exec in Hk. rewrite Hk. assumption.
Qed.

Lemma create_entry_frame (s : state) (data : json) :
  same_tasks_and_sockets s (exec (create_entry data) s).
Proof.
  unfold create_entry. apply request_frame. intros r s0.
  unfold_py. destruct (is_success (status r)); simpl; [|reflexivity].
  destruct (json_body r); reflexivity.
Qed.

Lemma get_entry_frame (s : state) (hash : EntryHash) :
  same_tasks_and_sockets s (exec (get_entry hash) s).
Proof.
  unfold get_entry. apply request_frame. intros r s0.
  destruct (status r =? 404)%Z; [reflexivity|].
  unfold_py. destruct (is_success (status r)); simpl; [|reflexivity].
  destruct (json_body r) as [v|]; simpl; [|reflexivity].
  destruct (Entry_init v); reflexivity.
Qed.

Lemma get_node_info_frame (s : state) :
  same_tasks_and_sockets s (exec get_node_info s).
Proof.
  unfold get_node_info. apply request_frame. intros r s0.
  unfold_py. destruct (is_success (status r)); simpl; [|reflexivity].
  destruct (json_body r); reflexivity.
Qed.

Lemma calls_of_app (t : nat) (tr1 tr2 : list event) :
  calls_of t (tr1 ++ tr2) = calls_of t tr1 ++ calls_of t tr2.
Proof. unfold calls_of. apply omap_app. Qed.

Lemma calls_of_calls (t : nat) (tr : list event) :
  calls_of t tr
  = omap (fun c : nat * Entry => if Nat.eqb c.1 t then Some c.2 else None) (calls tr).
Proof.
  unfold calls_of, calls. induction tr as [|e tr IH]; [reflexivity|].
  destruct e; simpl; try exact IH.
  destruct (Nat.eqb task t); simpl; try f_equal; exact IH.
Qed.

Lemma listen_loop_calls_of (t t' w : nat) (callback : Entry -> option exn)
    (frames : list string) :
  t' <> t -> calls_of t' (listen_loop t w callback frames).1.1 = [].
Proof.
  intros Hne. apply Nat.eqb_neq in Hne. rewrite Nat.eqb_sym in Hne.
  induction frames as [|m frames IH]; simpl; [reflexivity|].
  destruct (json_loads m) as [j|]; [|reflexivity].
  destruct (Entry_init j) as [e|]; [|reflexivity].
  destruct (callback e).
  - simpl. rewrite Hne. reflexivity.
  - destruct (listen_loop t w callback frames) as [[evs f] unread].
    simpl in *. rewrite Hne. assumption.
Qed.

Lemma listen_loop_close_calls (t w w' : nat) (callback : Entry -> option exn)
    (frames : list string) :
  close_calls w' (listen_loop t w callback frames).1.1 = 0.
Proof.
  induction frames as [|m frames IH]; simpl; [reflexivity|].
  destruct (json_loads m) as [j|]; [|reflexivity].
  destruct (Entry_init j) as [e|]; [|reflexivity].
  destruct (callback e); [reflexivity|].
  destruct (listen_loop t w callback frames) as [[evs f] unread]. assumption.
Qed.

Lemma turn_of_nothing (t : nat) (s : state) : turn_of t s s.
Proof.
  exists (fun task => task), [], (sockets s).
  rewrite app_nil_r, list_alter_id by reflexivity. destruct s. repeat split; reflexivity.
Qed.

Lemma turn_of_set_progress (t : nat) (s : state) (q : task_status) :
  turn_of t s (exec (set_progress t q) s).
Proof.
  exists (with_progress q), [], (sockets s). rewrite app_nil_r.
  repeat split; reflexivity.
Qed.

Lemma turn_of_iterate (t w : nat) (s : state) (callback : Entry -> option exn) :
  turn_of t s (exec (iterate t callback w) s).
Proof.
  destruct (sockets s !! w) as [sock|] eqn:Hw.
  - unfold exec. rewrite (iterate_eq s t w callback sock Hw). simpl.
    pose proof (fun t' => listen_loop_calls_of t t' w callback (inbox sock)) as Hc.
    destruct (listen_loop t w callback (inbox sock)) as [[evs failure] unread].
    simpl in Hc. eexists _, evs, _. split; [reflexivity|].
    rewrite length_insert. split; auto.
  - unfold exec, iterate, mbind, M_bind, bind, gets. simpl. rewrite Hw.
    apply turn_of_set_progress.
Qed.

Lemma turn_of_close (t w : nat) (s : state) :
  turn_of t s (exec (ws_close w;; set_progress t (Done (Ok tt))) s).
Proof.
  exists (with_progress (Done (Ok tt))), [EvWsClose w], (alter close_socket w (sockets s)).
  unfold_py. simpl. rewrite length_alter. repeat split; reflexivity.
Qed.

Lemma run_task_turn (s : state) (t : nat) : turn_of t s (exec (run_task t) s).
Proof.
  unfold exec at 1, run_task, mbind at 1. unfold M_bind, bind, gets. simpl.
  destruct (tasks s !! t) as [task|]; [|apply turn_of_nothing].
  destruct (progress task) as [|w|r]; simpl; [| |apply turn_of_nothing];
    (destruct (must_cancel task); [apply turn_of_set_progress|]);
    (destruct (coro task) as [callback|w']; [|apply turn_of_close]).
  - unfold mbind, M_bind, bind. simpl.
    destruct (_ws s) as [w|]; [apply turn_of_iterate|apply turn_of_set_progress].
  - apply turn_of_iterate.
Qed.

(** ** The invariant of the client object *)

Lemma wf_init (url wsurl : string) (t : Q) (d : bool) :
  wf (AIngleClient_init url wsurl t d).
Proof. split; intros x Hx; discriminate. Qed.

Lemma wf_posted (s : state) (rq : method * string * option json) :
  wf s -> wf (posted_to s rq).
Proof.
  intros [Hh Hw]. destruct (ensured_spec s Hh) as (Hh' & _ & _ & Hws & _).
  destruct (ensured_frame s) as (_ & Hsock & _).
  split.
  - exact Hh'.
  - intros w. unfold posted_to, posted. simpl. rewrite Hws, Hsock. apply Hw.
Qed.

Lemma wf_step (a : action) (s : state) : wf s -> wf (step a s).
Proof.
  intros Hwf. pose proof Hwf as [Hh Hw]. destruct a; simpl.
  - unfold exec. rewrite connect_eq. split.
    + intros c [= <-]. apply list_lookup_middle. reflexivity.
    + exact Hw.
  - unfold exec. rewrite disconnect_eq. split; intros x; simpl; discriminate.
  - unfold exec. rewrite create_entry_eq by assumption. apply wf_posted. assumption.
  - unfold exec. rewrite get_entry_eq by assumption. apply wf_posted. assumption.
  - unfold exec. rewrite get_node_info_eq by assumption. apply wf_posted. assumption.
  - unfold exec. rewrite subscribe_eq.
    destruct (ws_accepts (ws_url (config s))); [|assumption].
    split; [exact Hh|]. intros w [= <-]. simpl. rewrite length_app. simpl. lia.
  - unfold exec. rewrite unsubscribe_eq. split; assumption.
  - destruct (run_task_turn s task) as (p & evs & socks & -> & Hlen & _).
    split; [exact Hh|]. intros w. simpl. rewrite Hlen. apply Hw.
  - unfold exec. rewrite frame_arrives_eq. split; [exact Hh|].
    intros w. simpl. rewrite length_alter. apply Hw.
Qed.

Lemma wf_run (schedule : list action) (s : state) : wf s -> wf (run schedule s).
Proof.
  revert s. induction schedule as [|a schedule IH]; intros s Hwf; simpl.
  - assumption.
  - apply IH, wf_step, Hwf.
Qed.

(** ** unsubscribe and [_ws] *)

Lemma unsubscribe_queues_close (s : state) (t w : nat) :
  _ws s = Some w ->
  tasks (exec (unsubscribe t) s) !! length (tasks s)
  = Some (mkTask (ws_close_coro w) Created false).
Proof.
  intros Hw. unfold exec. rewrite unsubscribe_eq. unfold close_request. rewrite Hw. simpl.
  apply list_lookup_middle. rewrite length_alter. reflexivity.
Qed.

Lemma close_calls_one (w : nat) : close_calls w [EvWsClose w] = 1.
Proof. unfold close_calls. simpl. rewrite Nat.eqb_refl. reflexivity. Qed.

Lemma close_calls_disconnect (s : state) (w' : nat) :
  close_calls w' (trace (exec disconnect s))
  = close_calls w' (trace s)
    + match _ws s with Some w => if Nat.eqb w w' then 1 else 0 | None => 0 end.
Proof.
  unfold exec. rewrite disconnect_eq. simpl. rewrite !close_calls_app.
  destruct (_http_client s), (_ws s) as [w|]; unfold close_calls; simpl;
    try destruct (Nat.eqb w w'); reflexivity.
Qed.

(** C10. Invoking the unsubscribe handle leaves [_ws] as it was, so
    the field still holds the socket; the handle's queued [close()] and
    the [close()] of a following [disconnect()] are two closes of that
    same socket, in whichever order the loop runs them; and in every
    state a program reaches from a new client, [disconnect()] closes no
    socket other than the one opened last. *)
Theorem C10_unsubscribe_keeps_ws (s : state) (t : nat) :
  _ws (exec (unsubscribe t) s) = _ws s
  /\ (forall w, _ws s = Some w ->
        let k := length (tasks s) in
        close_calls w (trace (run [Unsubscribe t; RunTask k; Disconnect] s))
        = close_calls w (trace s) + 2
        /\ close_calls w (trace (run [Unsubscribe t; Disconnect; RunTask k] s))
           = close_calls w (trace s) + 2)
  /\ (forall schedule url wsurl tm d w',
        let reached := run schedule (AIngleClient_init url wsurl tm d) in
        S w' <> length (sockets reached) ->
        close_calls w' (trace (exec disconnect reached))
        = close_calls w' (trace reached)).
Proof.
  split; [|split].
  - unfold exec. rewrite unsubscribe_eq. reflexivity.
  - intros w Hw k. pose proof (unsubscribe_queues_close s t w Hw) as Hk. fold k in Hk.
    assert (_ws (exec (unsubscribe t) s) = Some w) as Hw1.
    { unfold exec. rewrite unsubscribe_eq. exact Hw. }
    assert (trace (exec (unsubscribe t) s) = trace s) as Htr1.
    { unfold exec. rewrite unsubscribe_eq. reflexivity. }
    set (s1 := exec (unsubscribe t) s) in *. simpl. fold s1. split.
    + unfold exec at 2.
      rewrite (run_task_close_eq s1 k w Created Hk) by discriminate. simpl.
      rewrite close_calls_disconnect. simpl.
      rewrite Hw1, Nat.eqb_refl, close_calls_app, close_calls_one, Htr1. lia.
    + assert (tasks (exec disconnect s1) !! k
              = Some (mkTask (ws_close_coro w) Created false)) as Hk2.
      { unfold exec. rewrite disconnect_eq. exact Hk. }
      unfold exec at 1.
      rewrite (run_task_close_eq _ k w Created Hk2) by discriminate. simpl.
      rewrite close_calls_app, close_calls_one, close_calls_disconnect.
      rewrite Hw1, Nat.eqb_refl, Htr1. lia.
  - intros schedule url wsurl tm d w' reached Hne.
    rewrite close_calls_disconnect.
    destruct (wf_run schedule _ (wf_init url wsurl tm d)) as [_ Hws].
    fold reached in Hws. destruct (_ws reached) as [w|] eqn:Hw; [|lia].
    specialize (Hws w Hw).
    destruct (Nat.eqb w w') eqn:E; [|lia]. apply Nat.eqb_eq in E. subst w'. lia.
Qed.

(** ** A cancelled listener makes no more calls *)


Lemma request_cancel_cancelled (task : Task) :
  must_cancel (request_cancel task) = true
  \/ exists r, progress (request_cancel task) = Done r.
Proof. unfold request_cancel. destruct task as [c [| |r] m]; simpl; eauto. Qed.

Lemma request_cancel_keeps (task : Task) :
  (must_cancel task = true \/ exists r, progress task = Done r) ->
  must_cancel (request_cancel task) = true
  \/ exists r, progress (request_cancel task) = Done r.
Proof. intros _. apply request_cancel_cancelled. Qed.


Lemma cancelled_same_tasks (s s' : state) (t : nat) :
  tasks s' = tasks s -> calls (trace s') = calls (trace s) ->
  cancelled s t ->
  cancelled s' t /\ calls_of t (trace s') = calls_of t (trace s).
Proof.
  intros Ht Hc Hcan. split.
  - unfold cancelled. rewrite Ht. exact Hcan.
  - rewrite !calls_of_calls, Hc. reflexivity.
Qed.

Lemma cancelled_step (a : action) (s : state) (t : nat) :
  cancelled s t ->
  cancelled (step a s) t /\ calls_of t (trace (step a s)) = calls_of t (trace s).
Proof.
  intros Hcan. pose proof Hcan as (task & Ht & Hdead). destruct a; simpl.
  - destruct (connect_frame s) as (H1 & _ & _ & H2 & _).
    apply cancelled_same_tasks; assumption.
  - apply cancelled_same_tasks; [| |assumption];
      unfold exec; rewrite disconnect_eq; [reflexivity|]. simpl.
    rewrite calls_app. destruct (_http_client s), (_ws s); simpl;
      rewrite ?app_nil_r; reflexivity.
  - destruct (create_entry_frame s data0) as (H1 & _ & _ & H2 & _).
    apply cancelled_same_tasks; assumption.
  - destruct (get_entry_frame s hash0) as (H1 & _ & _ & H2 & _).
    apply cancelled_same_tasks; assumption.
  - destruct (get_node_info_frame s) as (H1 & _ & _ & H2 & _).
    apply cancelled_same_tasks; assumption.
  - unfold exec. rewrite subscribe_eq.
    destruct (ws_accepts (ws_url (config s))); [|auto]. simpl. split.
    + exists task. split; [apply lookup_app_l_Some; assumption|assumption].
    + rewrite calls_of_app. simpl. rewrite app_nil_r. reflexivity.
  - unfold exec. rewrite unsubscribe_eq. simpl. split; [|reflexivity].
    destruct (decide (task0 = t)) as [->|Hne].
    + exists (request_cancel task). split; [|apply request_cancel_cancelled].
      apply lookup_app_l_Some. rewrite list_lookup_alter_eq, Ht. reflexivity.
    + exists task. split; [|assumption].
      apply lookup_app_l_Some. rewrite list_lookup_alter_ne by assumption. assumption.
  - destruct (decide (task0 = t)) as [->|Hne].
    + destruct Hdead as [Hc|[r Hr]].
      * destruct (progress task) as [| |r] eqn:Hp.
        -- unfold exec. rewrite (run_task_cancelled_eq s t task Ht Hc) by (rewrite Hp; discriminate).
           simpl. split; [|reflexivity].
           exists (with_progress (Done (Raise CancelledError)) task). simpl.
           rewrite list_lookup_alter_eq, Ht. split; [reflexivity|]. right. simpl. eauto.
        -- unfold exec. rewrite (run_task_cancelled_eq s t task Ht Hc) by (rewrite Hp; discriminate).
           simpl. split; [|reflexivity].
           exists (with_progress (Done (Raise CancelledError)) task). simpl.
           rewrite list_lookup_alter_eq, Ht. split; [reflexivity|]. right. simpl. eauto.
        -- unfold exec. rewrite run_task_done_eq by (rewrite Ht; eauto). auto.
      * unfold exec. rewrite run_task_done_eq by (rewrite Ht; eauto). auto.
    + destruct (run_task_turn s task0) as (p & evs & socks & -> & _ & Hev). simpl. split.
      * exists task. simpl. rewrite list_lookup_alter_ne by assumption. auto.
      * rewrite calls_of_app, (Hev t) by auto. apply app_nil_r.
  - unfold exec. rewrite frame_arrives_eq. simpl. auto.
Qed.

Lemma cancelled_run (schedule : list action) (s : state) (t : nat) :
  cancelled s t ->
  cancelled (run schedule s) t
  /\ calls_of t (trace (run schedule s)) = calls_of t (trace s).
Proof.
  revert s. induction schedule as [|a schedule IH]; intros s Hcan; simpl.
  - auto.
  - destruct (cancelled_step a s t Hcan) as [Hcan1 Hcalls1].
    destruct (IH _ Hcan1) as [Hcan2 Hcalls2]. split; [assumption|congruence].
Qed.


(** ** Two subscriptions on one client *)


(** * Further properties of the client *)

(** ** The HTTP operations *)

Lemma exec_call (op : operation) (s : state) :
  exec (call op) s
  = match op with
    | OpCreateEntry data => exec (create_entry data) s
    | OpGetEntry hash => exec (get_entry hash) s
    | OpGetNodeInfo => exec get_node_info s
    end.
Proof.
  unfold exec, call. destruct op; unfold mbind, M_bind, bind.
  - destruct (create_entry data0 s) as [[h|e] s']; reflexivity.
  - destruct (get_entry hash0 s) as [[h|e] s']; reflexivity.
  - destruct (get_node_info s) as [[h|e] s']; reflexivity.
Qed.




(** X3. No HTTP operation touches a subscription: the tasks, the
    sockets and [_ws] are as before, no callback is called and no
    socket is closed, from any state and whatever the outcome. *)
Theorem X3_http_operations_leave_subscriptions_alone (op : operation) (s : state) :
  let s' := exec (call op) s in
  tasks s' = tasks s
  /\ sockets s' = sockets s
  /\ _ws s' = _ws s
  /\ calls (trace s') = calls (trace s)
  /\ forall w, close_calls w (trace s') = close_calls w (trace s).
Proof.
  cbv zeta. rewrite exec_call. destruct op.
  - apply create_entry_frame.
  - apply get_entry_frame.
  - apply get_node_info_frame.
Qed.


Lemma error_status_not_success (code : Z) :
  (400 <= code <= 599)%Z -> is_success code = false.
Proof.
  unfold is_success. intros H. apply andb_false_iff. right. apply Z.leb_gt. lia.
Qed.


(** X5. A 4xx or 5xx response makes [raise_for_status()] raise
    [HTTPStatusError] with that status, before the body is looked at.
    The one exception is 404 in [get_entry]; in [create_entry] and
    [get_node_info] a 404 is an error like the others. *)
Theorem X5_error_statuses_raise (op : operation) (s : state) (r : Response) :
  http_ok s ->
  answer_to s (request_of op) = Responds r ->
  (400 <= status r <= 599)%Z ->
  (forall hash, op = OpGetEntry hash -> status r <> 404%Z) ->
  outcome (call op) s = Raise (httpx_HTTPStatusError (status r)).
Proof.
  intros Hok Hr Hs H404. unfold outcome. rewrite call_eq by assumption. simpl. rewrite Hr.
  pose proof (error_status_not_success _ Hs) as Hns.
  destruct op; simpl; unfold checked_json; rewrite ?Hns; try reflexivity.
  specialize (H404 hash0 eq_refl). apply Z.eqb_neq in H404. rewrite H404. reflexivity.
Qed.

Lemma NodeInfo_init_fields (members : list (string * json)) :
  kwargs_bind NodeInfo_fields members = true ->
  exists n, NodeInfo_init (JObj members) = Ok n
    /\ forall f, In f NodeInfo_fields -> NodeInfo_getattr n f = dict_get f members.
Proof using Type.
  intros Hb. unfold NodeInfo_init. rewrite Hb. eexists. split; [reflexivity|].
  apply kwargs_bind_true in Hb as [H1 _].
  intros f Hf. destruct (H1 f Hf) as [v Hv].
  simpl in Hf. unfold field.
  repeat (destruct Hf as [<-|Hf]; [rewrite Hv; reflexivity|]).
  destruct Hf.
Qed.

(** X6. [get_node_info()] on a 2xx response whose body is an object
    with exactly the seven [NodeInfo] keys returns a [NodeInfo] each of
    whose fields is the body's member of that name, unchecked; a
    missing key or a key that is no field raises [TypeError]. Unlike
    [get_entry] it has no absent result: a 404 raises
    [HTTPStatusError]. *)
Theorem X6_get_node_info_fields (s : state) (r : Response) :
  http_ok s ->
  node (sent (trace s))
    (mkRequest GET (node_url (config s) ++ "/api/v1/info") "/api/v1/info" None)
  = Responds r ->
  (status r = 404%Z -> outcome get_node_info s = Raise (httpx_HTTPStatusError 404))
  /\ (forall members,
        is_success (status r) = true ->
        json_body r = Some (JObj members) ->
        (kwargs_bind NodeInfo_fields members = true ->
           exists n, outcome get_node_info s = Ok n
             /\ forall f, In f NodeInfo_fields ->
                  NodeInfo_getattr n f = dict_get f members
                  /\ is_Some (dict_get f members))
        /\ (forall missing, In missing NodeInfo_fields ->
              dict_get missing members = None ->
              outcome get_node_info s = Raise TypeError)
        /\ (forall unexpected, In unexpected (dict_keys members) ->
              ~ In unexpected NodeInfo_fields ->
              outcome get_node_info s = Raise TypeError)).
Proof.
  intros Hok Hr. unfold outcome. rewrite get_node_info_eq by assumption.
  unfold answer_to, get_node_info_request, answer, request_for. simpl. rewrite Hr. simpl.
  unfold checked_json. split.
  - intros ->. reflexivity.
  - intros members Hs Hb. rewrite Hs, Hb. split; [|split].
    + intros Hbind. destruct (NodeInfo_init_fields members Hbind) as (n & -> & Hf).
      exists n. split; [reflexivity|]. intros f Hin. split; [auto|].
      apply kwargs_bind_true in Hbind as [H1 _]. destruct (H1 f Hin) as [v ->].
      exists v. reflexivity.
    + intros f Hin Hnone. unfold NodeInfo_init.
      rewrite kwargs_bind_false; [reflexivity|]. left. exists f. split; assumption.
    + intros k Hin Hnot. unfold NodeInfo_init.
      rewrite kwargs_bind_false; [reflexivity|]. right. exists k. split; assumption.
Qed.

(** ** The configuration and the debug trace *)

Lemma prints_app (tr1 tr2 : list event) : prints (tr1 ++ tr2) = prints tr1 ++ prints tr2.
Proof. unfold prints. apply omap_app. Qed.

Lemma quiet_refl (s : state) : quiet s s.
Proof. split; reflexivity. Qed.

Lemma quiet_trans (s1 s2 s3 : state) : quiet s1 s2 -> quiet s2 s3 -> quiet s1 s3.
Proof.
  intros [A1 A2] [B1 B2]. split; [congruence|].
  intros Hd. rewrite B2 by (rewrite A1; exact Hd). apply A2. exact Hd.
Qed.

Lemma connect_quiet (s : state) : quiet s (exec connect s).
Proof.
  unfold exec. rewrite connect_eq. split; [reflexivity|]. simpl.
  intros Hd. unfold connect_prints. rewrite Hd, app_nil_r. reflexivity.
Qed.

Lemma ensured_quiet (s : state) : quiet s (ensured s).
Proof.
  unfold ensured. destruct (_http_client s); [apply quiet_refl|apply connect_quiet].
Qed.

Lemma send_quiet (s : state) (c : nat) (m : method) (path : string) (body : option json) :
  quiet s (exec (send c m path body) s).
Proof.
  unfold exec, send, mbind, M_bind, bind, gets, emit, modify, raise, ret. simpl.
  destruct (http_clients s !! c) as [client|]; simpl; [|apply quiet_refl].
  destruct (is_closed client); simpl; [apply quiet_refl|].
  destruct (node _ _); simpl; split; simpl; try reflexivity;
    intros _; rewrite prints_app; simpl; apply app_nil_r.
Qed.

Lemma request_quiet {A} (s : state) (m : method) (path : string) (body : option json)
    (k : Response -> M A) :
  (forall r s0, exec (k r) s0 = s0) ->
  quiet s
    (exec (client ← ensure_http_client; response ← send client m path body; k response) s).
Proof.
  intros Hk. unfold exec, mbind at 1. unfold M_bind, bind.
  rewrite ensure_http_client_eq.
  destruct (_http_client (ensured s)) as [c|]; simpl; [|apply ensured_quiet].
  eapply quiet_trans; [apply ensured_quiet|].
  pose proof (send_quiet (ensured s) c m path body) as Hs.
  unfold exec in Hs. unfold mbind, M_bind, bind.
  destruct (send c m path body (ensured s)) as [[r|e] s1]; simpl in *; [|assumption].
  specialize (Hk r s1). unfold exec in Hk. rewrite Hk. assumption.
Qed.

Lemma call_quiet (op : operation) (s : state) : quiet s (exec (call op) s).
Proof.
  rewrite exec_call. destruct op.
  - unfold create_entry. apply request_quiet. intros r s0.
    unfold_py. destruct (is_success (status r)); simpl; [|reflexivity].
    destruct (json_body r); reflexivity.
  - unfold get_entry. apply request_quiet. intros r s0.
    destruct (status r =? 404)%Z; [reflexivity|].
    unfold_py. destruct (is_success (status r)); simpl; [|reflexivity].
    destruct (json_body r) as [v|]; simpl; [|reflexivity].
    destruct (Entry_init v); reflexivity.
  - unfold get_node_info. apply request_quiet. intros r s0.
    unfold_py. destruct (is_success (status r)); simpl; [|reflexivity].
    destruct (json_body r); reflexivity.
Qed.

Lemma listen_loop_events (t w : nat) (callback : Entry -> option exn) (frames : list string) :
  forallb (turn_event t) (listen_loop t w callback frames).1.1 = true.
Proof.
  induction frames as [|m frames IH]; simpl; [reflexivity|].
  destruct (json_loads m) as [j|]; simpl; rewrite ?Nat.eqb_refl; [|reflexivity].
  destruct (Entry_init j) as [e|]; simpl; rewrite ?Nat.eqb_refl; [|reflexivity].
  destruct (callback e); simpl; rewrite ?Nat.eqb_refl; [reflexivity|].
  destruct (listen_loop t w callback frames) as [[evs f] unread].
  simpl in *. rewrite !Nat.eqb_refl. assumption.
Qed.

(** What a turn of the loop adds to the trace are events of the task it
    resumes, or the closing of a socket. *)
Lemma run_task_events (s : state) (t : nat) :
  exists evs,
    trace (exec (run_task t) s) = trace s ++ evs
    /\ forallb (turn_event t) evs = true.
Proof.
  assert (forall q, exists evs,
            trace (exec (set_progress t q) s) = trace s ++ evs
            /\ forallb (turn_event t) evs = true) as Hset.
  { intros q. exists []. rewrite app_nil_r. split; reflexivity. }
  assert (forall callback w, exists evs,
            trace (exec (iterate t callback w) s) = trace s ++ evs
            /\ forallb (turn_event t) evs = true) as Hit.
  { intros callback w. destruct (sockets s !! w) as [sock|] eqn:Hw.
    - unfold exec. rewrite (iterate_eq s t w callback sock Hw). simpl.
      pose proof (listen_loop_events t w callback (inbox sock)) as He.
      destruct (listen_loop t w callback (inbox sock)) as [[evs failure] unread].
      exists evs. split; [reflexivity|exact He].
    - unfold exec, iterate, mbind, M_bind, bind, gets. simpl. rewrite Hw.
      apply Hset. }
  assert (exists evs, trace s = trace s ++ evs /\ forallb (turn_event t) evs = true) as Hid.
  { exists []. rewrite app_nil_r. split; reflexivity. }
  unfold exec at 1, run_task, mbind at 1. unfold M_bind, bind, gets. simpl.
  destruct (tasks s !! t) as [task|]; [|exact Hid].
  destruct (progress task) as [|w|r]; simpl; [| |exact Hid];
    (destruct (must_cancel task); [apply Hset|]);
    (destruct (coro task) as [callback|w'];
     [|exists [EvWsClose w']; split; reflexivity]).
  - unfold mbind, M_bind, bind. simpl.
    destruct (_ws s) as [w|]; [apply Hit|apply Hset].
  - apply Hit.
Qed.

Lemma turn_events_no_prints (t : nat) (evs : list event) :
  forallb (turn_event t) evs = true -> prints evs = [].
Proof.
  induction evs as [|e evs IH]; [reflexivity|]. simpl.
  intros H. apply andb_true_iff in H as [He H].
  destruct e; try discriminate He; simpl; apply IH; exact H.
Qed.

Lemma step_quiet (a : action) (s : state) : quiet s (step a s).
Proof.
  destruct a as [| |d|h| |cb|t|t|w m]; simpl.
  - apply connect_quiet.
  - unfold exec. rewrite disconnect_eq. split; [reflexivity|]. simpl. intros _.
    rewrite prints_app. destruct (_http_client s), (_ws s); simpl; apply app_nil_r.
  - pose proof (call_quiet (OpCreateEntry d) s) as H.
    rewrite exec_call in H. exact H.
  - pose proof (call_quiet (OpGetEntry h) s) as H.
    rewrite exec_call in H. exact H.
  - pose proof (call_quiet OpGetNodeInfo s) as H.
    rewrite exec_call in H. exact H.
  - unfold exec. rewrite subscribe_eq.
    destruct (ws_accepts (ws_url (config s))); [|apply quiet_refl].
    split; [reflexivity|]. simpl. intros _. rewrite prints_app. apply app_nil_r.
  - unfold exec. rewrite unsubscribe_eq. split; reflexivity.
  - split.
    + destruct (run_task_turn s t) as (p & evs & socks & -> & _). reflexivity.
    + intros _. destruct (run_task_events s t) as (evs & -> & Hev).
      rewrite prints_app, (turn_events_no_prints t evs Hev). apply app_nil_r.
  - unfold exec. rewrite frame_arrives_eq. split; reflexivity.
Qed.

Lemma run_quiet (schedule : list action) (s : state) : quiet s (run schedule s).
Proof.
  revert s. induction schedule as [|a schedule IH]; intros s; simpl.
  - apply quiet_refl.
  - eapply quiet_trans; [apply step_quiet|apply IH].
Qed.


(** X8. With [debug] off the client never prints, whatever is called
    on it; with [debug] on every [connect()], the explicit one and the
    lazy one of an operation on a client that is not connected, prints
    one line naming the node URL, and an operation on a connected client
    prints nothing. *)
Theorem X8_debug_printing (s : state) :
  (debug (config s) = false ->
     forall schedule, prints (trace (run schedule s)) = prints (trace s))
  /\ (debug (config s) = true ->
        prints (trace (exec connect s))
        = prints (trace s) ++ [("Connecting to " ++ node_url (config s))%string]
        /\ forall op, http_ok s ->
             prints (trace (exec (call op) s))
             = prints (trace s)
               ++ match _http_client s with
                  | None => [("Connecting to " ++ node_url (config s))%string]
                  | Some _ => []
                  end).
Proof.
  split.
  - intros Hd schedule. apply (run_quiet schedule s). exact Hd.
  - intros Hd. split.
    + unfold exec. rewrite connect_eq. simpl. unfold connect_prints.
      rewrite Hd, prints_app. reflexivity.
    + intros op Hok. rewrite call_state by assumption.
      unfold posted_to, posted, ensured. simpl.
      destruct (_http_client s) as [c|].
      * rewrite prints_app. reflexivity.
      * unfold exec. rewrite connect_eq. simpl. unfold connect_prints.
        rewrite Hd, !prints_app. simpl. rewrite app_nil_r. reflexivity.
Qed.

(** ** The life of a listener *)

Lemma request_cancel_unfinished (task : Task) :
  unfinished task ->
  request_cancel task = mkTask (coro task) (progress task) true.
Proof.
  unfold unfinished, request_cancel. intros H.
  destruct (progress task) as [| |r] eqn:E; try reflexivity.
  exfalso. apply (H r). reflexivity.
Qed.

(** X9. Invoking the unsubscribe handle of the subscription made last
    ends it: once the loop has run the cancelled listener and the queued
    [close()], in either order, the listener has finished with
    [CancelledError], its socket is closed, and its callback was not
    called in between. *)
Theorem X9_unsubscribe_ends_latest_subscription (s : state) (t w : nat)
    (task : Task) (sock : WebSocket) :
  tasks s !! t = Some task ->
  unfinished task ->
  _ws s = Some w ->
  sockets s !! w = Some sock ->
  let k := length (tasks s) in
  forall s',
    s' = run [Unsubscribe t; RunTask t; RunTask k] s
    \/ s' = run [Unsubscribe t; RunTask k; RunTask t] s ->
    progress <$> tasks s' !! t = Some (Done (Raise CancelledError))
    /\ sockets s' !! w = Some (close_socket sock)
    /\ calls_of t (trace s') = calls_of t (trace s).
Proof.
  intros Ht Hun Hw Hsock k s' Hs'.
  assert (t < k) as Hlt by (eapply lookup_lt_Some; eassumption).
  set (s1 := exec (unsubscribe t) s).
  assert (s1 = with_tasks (alter request_cancel t (tasks s)
                           ++ [mkTask (ws_close_coro w) Created false]) s) as E1.
  { unfold s1, exec. rewrite unsubscribe_eq. unfold close_request. rewrite Hw. reflexivity. }
  assert (tasks s1 !! t = Some (mkTask (coro task) (progress task) true)) as T1.
  { rewrite E1. simpl. apply lookup_app_l_Some.
    rewrite list_lookup_alter_eq, Ht. simpl. rewrite request_cancel_unfinished by assumption.
    reflexivity. }
  assert (tasks s1 !! k = Some (mkTask (ws_close_coro w) Created false)) as K1.
  { apply unsubscribe_queues_close. assumption. }
  destruct Hs' as [-> | ->]; simpl; fold s1.
  - assert (exec (run_task t) s1
            = with_tasks (alter (with_progress (Done (Raise CancelledError))) t (tasks s1)) s1)
      as E2.
    { unfold exec. rewrite (run_task_cancelled_eq s1 t _ T1); [reflexivity|reflexivity|].
      exact Hun. }
    rewrite E2.
    set (s2 := with_tasks _ s1).
    assert (tasks s2 !! k = Some (mkTask (ws_close_coro w) Created false)) as K2.
    { unfold s2. simpl. rewrite list_lookup_alter_ne by lia. exact K1. }
    unfold exec. rewrite (run_task_close_eq s2 k w Created K2) by discriminate. simpl.
    rewrite list_lookup_alter_ne by lia. rewrite list_lookup_alter_eq, T1.
    rewrite E1. simpl. rewrite list_lookup_alter_eq, Hsock.
    rewrite calls_of_app. simpl. rewrite app_nil_r. repeat split.
  - assert (exec (run_task k) s1
            = mkState (config s1) (_http_client s1) (_ws s1) (http_clients s1)
                (alter close_socket w (sockets s1))
                (alter (with_progress (Done (Ok tt))) k (tasks s1))
                (trace s1 ++ [EvWsClose w])) as E2.
    { unfold exec. rewrite (run_task_close_eq s1 k w Created K1) by discriminate.
      reflexivity. }
    rewrite E2.
    set (s2 := mkState _ _ _ _ _ _ _).
    assert (tasks s2 !! t = Some (mkTask (coro task) (progress task) true)) as T2.
    { unfold s2. simpl. rewrite list_lookup_alter_ne by lia. exact T1. }
    unfold exec. rewrite (run_task_cancelled_eq s2 t _ T2); [|reflexivity|exact Hun].
    simpl. rewrite list_lookup_alter_eq.
    rewrite list_lookup_alter_ne by lia. rewrite T1.
    rewrite E1. simpl. rewrite list_lookup_alter_eq, Hsock.
    rewrite calls_of_app. simpl. rewrite app_nil_r. repeat split.
Qed.

Lemma calls_of_processed (t w : nat) (frames : list string) (entries : list Entry) :
  length frames = length entries ->
  calls_of t (flat_map (processed t w) (zip frames entries)) = entries.
Proof.
  revert entries. induction frames as [|m frames IH]; intros [|e entries] Hlen;
    simpl in *; try discriminate; try reflexivity.
  rewrite Nat.eqb_refl. f_equal. apply IH. lia.
Qed.

Lemma listen_loop_fails (t w : nat) (callback : Entry -> option exn)
    (good : list string) (entries : list Entry) (bad : string) (rest : list string)
    (e : exn) :
  Forall2 (delivers callback) good entries ->
  frame_failure callback bad = Some e ->
  listen_loop t w callback (good ++ bad :: rest)
  = (flat_map (processed t w) (zip good entries)
     ++ EvRecv t w bad :: map (EvCall t) (frame_entry bad),
     Some e, rest).
Proof.
  intros Hgood Hbad.
  induction Hgood as [|message entry frames entries (j & Hj & He & Hcb) _ IH]; simpl.
  - unfold frame_failure in Hbad. unfold frame_entry.
    destruct (json_loads bad) as [j|]; [|injection Hbad as <-; reflexivity].
    destruct (Entry_init j) as [entry|e']; [|injection Hbad as <-; reflexivity].
    rewrite Hbad. reflexivity.
  - rewrite Hj, He, Hcb, IH. reflexivity.
Qed.

(** X10. One frame the listener cannot handle ends the subscription:
    when the text is not JSON, or the value does not construct an
    [Entry], or the callback raises, the task finishes with that
    exception. The frames before it were delivered in order, the frames
    after it stay unread, and the callback is never called again,
    whatever arrives later. *)
Theorem X10_bad_frame_ends_listener (s : state) (t w : nat) (callback : Entry -> option exn)
    (task : Task) (sock : WebSocket) (good : list string) (entries : list Entry)
    (bad : string) (rest : list string) (e : exn) :
  tasks s !! t = Some task ->
  coro task = listen callback ->
  must_cancel task = false ->
  listens_on s task = Some w ->
  sockets s !! w = Some sock ->
  inbox sock = good ++ bad :: rest ->
  Forall2 (delivers callback) good entries ->
  frame_failure callback bad = Some e ->
  let s' := exec (run_task t) s in
  progress <$> tasks s' !! t = Some (Done (Raise e))
  /\ calls_of t (trace s') = calls_of t (trace s) ++ entries ++ frame_entry bad
  /\ inbox <$> sockets s' !! w = Some rest
  /\ forall schedule, calls_of t (trace (run schedule s')) = calls_of t (trace s').
Proof.
  intros Ht Hco Hc Hon Hw Hin Hgood Hbad s'.
  assert (s' = mkState (config s) (_http_client s) (_ws s) (http_clients s)
                 (<[w := with_inbox rest sock]> (sockets s))
                 (alter (with_progress (Done (Raise e))) t (tasks s))
                 (trace s ++ flat_map (processed t w) (zip good entries)
                  ++ EvRecv t w bad :: map (EvCall t) (frame_entry bad))) as E.
  { unfold s', exec.
    rewrite (run_task_listen_eq s t w callback task sock) by assumption.
    rewrite (iterate_eq s t w callback sock) by assumption.
    rewrite Hin, (listen_loop_fails _ _ _ _ _ _ _ _ Hgood Hbad). reflexivity. }
  assert (tasks s' !! t = Some (with_progress (Done (Raise e)) task)) as T.
  { rewrite E. simpl. rewrite list_lookup_alter_eq, Ht. reflexivity. }
  split; [|split; [|split]].
  - rewrite T. reflexivity.
  - rewrite E. simpl. rewrite !calls_of_app.
    rewrite calls_of_processed by (eapply Forall2_length; eassumption).
    f_equal. f_equal. simpl. unfold frame_entry.
    destruct (json_loads bad) as [j|]; [|reflexivity].
    destruct (Entry_init j); [|reflexivity]. simpl. rewrite Nat.eqb_refl. reflexivity.
  - rewrite E. simpl.
    rewrite list_lookup_insert_eq by (eapply lookup_lt_Some; eassumption). reflexivity.
  - intros schedule. apply cancelled_run.
    exists (with_progress (Done (Raise e)) task). split; [exact T|]. right. simpl. eauto.
Qed.


(** X12. [disconnect()] cancels no task and sends nothing; besides the
    two objects the client holds it closes nothing. A listener waiting
    on the socket it closes is not cancelled: it ends by itself, without
    an exception, at its next turn. *)
Theorem X12_disconnect_and_the_listener (s : state) :
  let s1 := exec disconnect s in
  tasks s1 = tasks s
  /\ sent (trace s1) = sent (trace s)
  /\ calls (trace s1) = calls (trace s)
  /\ (forall w, _ws s <> Some w -> sockets s1 !! w = sockets s !! w)
  /\ (forall c, _http_client s <> Some c -> http_clients s1 !! c = http_clients s !! c)
  /\ (forall t w task sock callback,
        _ws s = Some w ->
        tasks s !! t = Some task ->
        coro task = listen callback ->
        must_cancel task = false ->
        progress task = Suspended w ->
        sockets s !! w = Some sock ->
        inbox sock = [] ->
        tasks (exec (run_task t) s1) !! t = Some (with_progress (Done (Ok tt)) task)
        /\ calls (trace (exec (run_task t) s1)) = calls (trace s)).
Proof.
  cbv zeta.
  assert (calls (trace s
                 ++ match _http_client s with Some c => [EvAclose c] | None => [] end
                 ++ match _ws s with Some w => [EvWsClose w] | None => [] end)
          = calls (trace s)) as Hcalls.
  { rewrite !calls_app. destruct (_http_client s), (_ws s); simpl;
      rewrite ?app_nil_r; reflexivity. }
  set (s1 := exec disconnect s).
  assert (s1 = mkState (config s) None None
                 (match _http_client s with
                  | Some c => alter close_client c (http_clients s)
                  | None => http_clients s
                  end)
                 (match _ws s with
                  | Some w => alter close_socket w (sockets s)
                  | None => sockets s
                  end)
                 (tasks s)
                 (trace s
                  ++ match _http_client s with Some c => [EvAclose c] | None => [] end
                  ++ match _ws s with Some w => [EvWsClose w] | None => [] end)) as E1.
  { unfold s1, exec. rewrite disconnect_eq. reflexivity. }
  split; [rewrite E1; reflexivity|]. split; [|split; [|split; [|split]]].
  - rewrite E1. simpl. rewrite !sent_app. destruct (_http_client s), (_ws s); simpl;
      rewrite ?app_nil_r; reflexivity.
  - rewrite E1. exact Hcalls.
  - intros w Hne. rewrite E1. simpl. destruct (_ws s) as [w'|]; [|reflexivity].
    apply list_lookup_alter_ne. congruence.
  - intros c Hne. rewrite E1. simpl. destruct (_http_client s) as [c'|]; [|reflexivity].
    apply list_lookup_alter_ne. congruence.
  - intros t w task sock callback Hw Ht Hco Hc Hp Hs Hin.
    assert (tasks s1 !! t = Some task) as T1 by (rewrite E1; exact Ht).
    assert (sockets s1 !! w = Some (close_socket sock)) as S1.
    { rewrite E1. simpl. rewrite Hw, list_lookup_alter_eq, Hs. reflexivity. }
    assert (listens_on s1 task = Some w) as Hon1.
    { unfold listens_on. rewrite Hp. reflexivity. }
    unfold exec.
    rewrite (run_task_listen_eq s1 t w callback task (close_socket sock)) by assumption.
    rewrite (iterate_eq s1 t w callback (close_socket sock) S1). simpl.
    rewrite Hin. simpl. rewrite list_lookup_alter_eq, T1.
    rewrite app_nil_r. split; [reflexivity|]. rewrite E1. exact Hcalls.
Qed.

(** ** Scoped use and reconnection *)


Lemma exec_disconnect_eq (s : state) :
  exec disconnect s
  = mkState (config s) None None
      (match _http_client s with
       | Some c => alter close_client c (http_clients s)
       | None => http_clients s
       end)
      (match _ws s with
       | Some w => alter close_socket w (sockets s)
       | None => sockets s
       end)
      (tasks s)
      (trace s
       ++ match _http_client s with Some c => [EvAclose c] | None => [] end
       ++ match _ws s with Some w => [EvWsClose w] | None => [] end).
Proof. unfold exec. rewrite disconnect_eq. reflexivity. Qed.

Lemma exec_connect_eq (s : state) :
  exec connect s
  = mkState (config s) (Some (length (http_clients s))) (_ws s)
      (http_clients s
       ++ [mkAsyncClient (node_url (config s)) (timeout (config s)) false])
      (sockets s) (tasks s) (trace s ++ connect_prints s).
Proof. unfold exec. rewrite connect_eq. reflexivity. Qed.



(** ** A socket the client no longer holds *)

Lemma run_task_unfold (s : state) (t : nat) :
  exec (run_task t) s
  = match tasks s !! t with
    | None => s
    | Some task =>
        match progress task with
        | Done _ => s
        | current =>
            if must_cancel task
            then exec (set_progress t (Done (Raise CancelledError))) s
            else
              match coro task with
              | ws_close_coro w =>
                  mkState (config s) (_http_client s) (_ws s) (http_clients s)
                    (alter close_socket w (sockets s))
                    (alter (with_progress (Done (Ok tt))) t (tasks s))
                    (trace s ++ [EvWsClose w])
              | listen callback =>
                  match current with
                  | Suspended w => exec (iterate t callback w) s
                  | _ =>
                      match _ws s with
                      | None => exec (set_progress t (Done (Raise AssertionError))) s
                      | Some w => exec (iterate t callback w) s
                      end
                  end
              end
        end
    end.
Proof.
  unfold exec at 1, run_task, mbind at 1. unfold M_bind, bind, gets. simpl.
  destruct (tasks s !! t) as [task|]; [|reflexivity].
  destruct (progress task) as [|w|r]; simpl; try reflexivity;
    (destruct (must_cancel task); [reflexivity|]);
    (destruct (coro task) as [callback|w']; [|reflexivity]).
  - unfold mbind, M_bind, bind. simpl. destruct (_ws s); reflexivity.
  - reflexivity.
Qed.

(** The four things a turn of the loop on task [t] can be. *)
Lemma run_task_cases (s : state) (t : nat) :
  (exec (run_task t) s = s
   /\ forall task, tasks s !! t = Some task -> exists r, progress task = Done r)
  \/ (exists task q,
        tasks s !! t = Some task /\ unfinished task
        /\ exec (run_task t) s = exec (set_progress t q) s)
  \/ (exists task callback w,
        tasks s !! t = Some task /\ unfinished task /\ coro task = listen callback
        /\ exec (run_task t) s = exec (iterate t callback w) s)
  \/ (exists task w,
        tasks s !! t = Some task /\ unfinished task /\ coro task = ws_close_coro w
        /\ exec (run_task t) s
           = mkState (config s) (_http_client s) (_ws s) (http_clients s)
               (alter close_socket w (sockets s))
               (alter (with_progress (Done (Ok tt))) t (tasks s))
               (trace s ++ [EvWsClose w])).
Proof.
  rewrite run_task_unfold.
  destruct (tasks s !! t) as [task|] eqn:Ht.
  2:{ left. split; [reflexivity|]. intros task [=]. }
  destruct (progress task) as [|w|r] eqn:Hp.
  - assert (unfinished task) as Hun by (intros r; rewrite Hp; discriminate).
    destruct (must_cancel task).
    + right. left. exists task, (Done (Raise CancelledError)). auto.
    + destruct (coro task) as [callback|w'] eqn:Hco.
      * destruct (_ws s) as [w|].
        -- right. right. left. exists task, callback, w. auto.
        -- right. left. exists task, (Done (Raise AssertionError)). auto.
      * right. right. right. exists task, w'. auto.
  - assert (unfinished task) as Hun by (intros r; rewrite Hp; discriminate).
    destruct (must_cancel task).
    + right. left. exists task, (Done (Raise CancelledError)). auto.
    + destruct (coro task) as [callback|w'] eqn:Hco.
      * right. right. left. exists task, callback, w. auto.
      * right. right. right. exists task, w'. auto.
  - left. split; [reflexivity|]. intros task' [= <-]. eauto.
Qed.

Lemma iterate_cases (s : state) (t w : nat) (callback : Entry -> option exn) :
  exists q socks evs,
    exec (iterate t callback w) s
    = mkState (config s) (_http_client s) (_ws s) (http_clients s) socks
        (alter (with_progress q) t (tasks s)) (trace s ++ evs)
    /\ length socks = length (sockets s)
    /\ forall w', ws_closed <$> socks !! w' = ws_closed <$> sockets s !! w'.
Proof.
  destruct (sockets s !! w) as [sock|] eqn:Hw.
  - unfold exec. rewrite (iterate_eq s t w callback sock Hw). simpl.
    destruct (listen_loop t w callback (inbox sock)) as [[evs failure] unread].
    eexists _, _, evs. split; [reflexivity|]. split; [apply length_insert|].
    intros w'. destruct (decide (w = w')) as [<-|Hne].
    + rewrite list_lookup_insert_eq by (eapply lookup_lt_Some; eassumption).
      rewrite Hw. reflexivity.
    + rewrite list_lookup_insert_ne by assumption. reflexivity.
  - unfold exec, iterate, mbind, M_bind, bind, gets. simpl. rewrite Hw.
    exists (Done (Raise RuntimeError)), (sockets s), []. rewrite app_nil_r.
    repeat split.
Qed.

Lemma alter_progress_coro (ts : list Task) (t t' : nat) (q : task_status) (task' : Task) :
  alter (with_progress q) t ts !! t' = Some task' ->
  exists task,
    ts !! t' = Some task /\ coro task' = coro task
    /\ (t' <> t -> task' = task).
Proof.
  destruct (decide (t = t')) as [<-|Hne].
  - rewrite list_lookup_alter_eq. destruct (ts !! t) as [task|]; [|discriminate].
    intros [= <-]. exists task. repeat split. intros H. exfalso. apply H. reflexivity.
  - rewrite list_lookup_alter_ne by assumption. intros H. exists task'. auto.
Qed.

Lemma left_behind_step (a : action) (s : state) (w : nat) :
  left_behind s w ->
  left_behind (step a s) w
  /\ ws_closed <$> sockets (step a s) !! w = ws_closed <$> sockets s !! w.
Proof.
  intros (Hlt & Hws & Hclose).
  assert (forall s', tasks s' = tasks s -> sockets s' = sockets s -> _ws s' = _ws s ->
            left_behind s' w
            /\ ws_closed <$> sockets s' !! w = ws_closed <$> sockets s !! w) as Hsame.
  { intros s' Ht Hs Hw. unfold left_behind. rewrite Ht, Hs, Hw. auto. }
  destruct a as [| |d|h| |cb|t|t|w' m]; simpl.
  - destruct (connect_frame s) as (H1 & H2 & H3 & _). apply Hsame; assumption.
  - rewrite exec_disconnect_eq. unfold left_behind. simpl. split.
    + split; [|split; [discriminate|exact Hclose]].
      destruct (_ws s); [rewrite length_alter|]; exact Hlt.
    + destruct (_ws s) as [w0|]; [|reflexivity].
      rewrite list_lookup_alter_ne by congruence. reflexivity.
  - destruct (create_entry_frame s d) as (H1 & H2 & H3 & _). apply Hsame; assumption.
  - destruct (get_entry_frame s h) as (H1 & H2 & H3 & _). apply Hsame; assumption.
  - destruct (get_node_info_frame s) as (H1 & H2 & H3 & _). apply Hsame; assumption.
  - unfold exec. rewrite subscribe_eq.
    destruct (ws_accepts (ws_url (config s))); [|apply Hsame; reflexivity].
    unfold left_behind. simpl. split.
    + split; [rewrite length_app; lia|]. split; [intros [= E]; lia|].
      intros t task Ht Hco. apply lookup_app_Some in Ht as [Ht|[_ Ht]].
      * eapply Hclose; eassumption.
      * destruct (t - length (tasks s)) as [|n]; simpl in Ht; [|destruct n; discriminate].
        injection Ht as <-. discriminate Hco.
    + rewrite lookup_app_l by exact Hlt. reflexivity.
  - unfold exec. rewrite unsubscribe_eq. unfold left_behind. simpl.
    split; [|reflexivity]. split; [exact Hlt|]. split; [exact Hws|].
    intros t' task Ht Hco. apply lookup_app_Some in Ht as [Ht|[_ Ht]].
    + destruct (decide (t = t')) as [<-|Hne].
      * rewrite list_lookup_alter_eq in Ht.
        destruct (tasks s !! t) as [task0|] eqn:Ht0; [|discriminate].
        injection Ht as <-.
        assert (coro task0 = ws_close_coro w) as Hco0.
        { unfold request_cancel in Hco. destruct (progress task0); exact Hco. }
        destruct (Hclose t task0 Ht0 Hco0) as [r Hr].
        exists r. unfold request_cancel. rewrite Hr. exact Hr.
      * rewrite list_lookup_alter_ne in Ht by assumption. eapply Hclose; eassumption.
    + unfold close_request in Ht. destruct (_ws s) as [w0|] eqn:Hw0.
      * destruct (t' - length (alter request_cancel t (tasks s))) as [|n];
          simpl in Ht; [|destruct n; discriminate].
        injection Ht as <-. simpl in Hco. congruence.
      * destruct (t' - length (alter request_cancel t (tasks s))); discriminate.
  - assert (forall q socks evs,
              ws_closed <$> socks !! w = ws_closed <$> sockets s !! w ->
              length socks = length (sockets s) ->
              let s' := mkState (config s) (_http_client s) (_ws s) (http_clients s) socks
                          (alter (with_progress q) t (tasks s)) (trace s ++ evs) in
              (forall task, tasks s !! t = Some task -> unfinished task) ->
              left_behind s' w
              /\ ws_closed <$> sockets s' !! w = ws_closed <$> sockets s !! w) as Halter.
    { intros q socks evs Hsock Hlen s' Hun. unfold left_behind. simpl.
      split; [|exact Hsock]. split; [rewrite Hlen; exact Hlt|]. split; [exact Hws|].
      intros t' task' Ht' Hco.
      destruct (alter_progress_coro _ _ _ _ _ Ht') as (task & Ht & Hcoro & Hsame').
      rewrite Hcoro in Hco. destruct (Hclose t' task Ht Hco) as [r Hr].
      destruct (decide (t' = t)) as [->|Hne].
      - exfalso. apply (Hun task Ht r). exact Hr.
      - rewrite (Hsame' Hne). eauto. }
    destruct (run_task_cases s t)
      as [[-> _]|[(task & q & Ht & Hun & ->)|[(task & cb & w0 & Ht & Hun & Hco & ->)
                                              |(task & w0 & Ht & Hun & Hco & ->)]]].
    + apply Hsame; reflexivity.
    + apply (Halter q (sockets s) []); [reflexivity|reflexivity|].
      intros task0 Ht0. rewrite Ht in Ht0. injection Ht0 as <-. exact Hun.
    + destruct (iterate_cases s t w0 cb) as (q & socks & evs & -> & Hlen & Hsock).
      apply (Halter q socks evs); [apply Hsock|exact Hlen|].
      intros task0 Ht0. rewrite Ht in Ht0. injection Ht0 as <-. exact Hun.
    + assert (w0 <> w) as Hne.
      { intros ->. destruct (Hclose t task Ht Hco) as [r Hr]. apply (Hun r). exact Hr. }
      apply (Halter (Done (Ok tt)) (alter close_socket w0 (sockets s)) [EvWsClose w0]).
      * rewrite list_lookup_alter_ne by assumption. reflexivity.
      * apply length_alter.
      * intros task0 Ht0. rewrite Ht in Ht0. injection Ht0 as <-. exact Hun.
  - unfold exec. rewrite frame_arrives_eq. unfold left_behind. simpl. split.
    + split; [rewrite length_alter; exact Hlt|]. split; [exact Hws|exact Hclose].
    + destruct (decide (w' = w)) as [->|Hne].
      * rewrite list_lookup_alter_eq. destruct (sockets s !! w) as [sock|]; [|reflexivity].
        simpl. destruct (ws_closed sock) eqn:E; simpl; rewrite ?E; reflexivity.
      * rewrite list_lookup_alter_ne by assumption. reflexivity.
Qed.

Lemma left_behind_run (schedule : list action) (s : state) (w : nat) :
  left_behind s w ->
  left_behind (run schedule s) w
  /\ ws_closed <$> sockets (run schedule s) !! w = ws_closed <$> sockets s !! w.
Proof.
  revert s. induction schedule as [|a schedule IH]; intros s Hl; simpl.
  - auto.
  - destruct (left_behind_step a s w Hl) as [Hl1 E1].
    destruct (IH _ Hl1) as [Hl2 E2]. split; [assumption|congruence].
Qed.

(** X15. [subscribe] stores the new socket over the one [_ws] held
    without closing it, and from then on nothing reaches the old one:
    whatever is called afterwards and however the loop runs, the earlier
    socket, when open, stays open. Only a [close()] that an unsubscribe
    handle had queued before the second [subscribe] can still close
    it. *)
Theorem X15_overwritten_socket_stays_open (s : state) (w : nat) (sock : WebSocket)
    (callback : Entry -> option exn) :
  ws_accepts (ws_url (config s)) = true ->
  _ws s = Some w ->
  sockets s !! w = Some sock ->
  (forall t task, tasks s !! t = Some task -> coro task = ws_close_coro w ->
     exists r, progress task = Done r) ->
  forall schedule,
    ws_closed <$> sockets (run (Subscribe callback :: schedule) s) !! w
    = Some (ws_closed sock).
Proof.
  intros Hacc Hw Hsock Hclose schedule.
  set (s1 := exec (subscribe callback) s).
  change (run (Subscribe callback :: schedule) s) with (run schedule s1).
  assert (s1 = mkState (config s) (_http_client s) (Some (length (sockets s)))
                 (http_clients s)
                 (sockets s ++ [mkWebSocket (ws_url (config s)) false []])
                 (tasks s ++ [mkTask (listen callback) Created false])
                 (trace s ++ [EvWsOpen (length (sockets s))])) as E1.
  { unfold s1, exec. rewrite subscribe_eq, Hacc. reflexivity. }
  assert (w < length (sockets s)) as Hlt by (eapply lookup_lt_Some; eassumption).
  assert (left_behind s1 w) as Hl.
  { rewrite E1. unfold left_behind. simpl.
    split; [rewrite length_app; lia|]. split; [intros [= E]; lia|].
    intros t task Ht Hco. apply lookup_app_Some in Ht as [Ht|[_ Ht]].
    - eapply Hclose; eassumption.
    - destruct (t - length (tasks s)) as [|n]; simpl in Ht; [|destruct n; discriminate].
      injection Ht as <-. discriminate Hco. }
  destruct (left_behind_run schedule s1 w Hl) as [_ ->].
  rewrite E1. simpl. rewrite lookup_app_l by exact Hlt. rewrite Hsock. reflexivity.
Qed.

(** ** Construction from a JSON object *)

Lemma dict_get_is_Some (key : string) (members : list (string * json)) :
  (exists v, dict_get key members = Some v) <-> In key (dict_keys members).
Proof using Type.
  rewrite <- existsb_eqb_In. fold (has_key key members).
  destruct (dict_get key members) as [v|] eqn:Hg.
  - destruct (has_key key members) eqn:Hk.
    + split; eauto.
    + apply dict_get_None in Hk. rewrite Hk in Hg. discriminate Hg.
  - pose proof (proj1 (dict_get_None key members) Hg) as Hk. rewrite Hk.
    split; [intros [v Hv]; discriminate Hv|discriminate].
Qed.

Lemma kwargs_bind_key_set (fields : list string) (members : list (string * json)) :
  kwargs_bind fields members = true <->
  forall k, In k (dict_keys members) <-> In k fields.
Proof using Type.
  rewrite kwargs_bind_true. split.
  - intros [H1 H2] k. split; [apply H2|]. intros Hk. apply dict_get_is_Some. auto.
  - intros H. split.
    + intros f Hf. apply dict_get_is_Some. apply H. exact Hf.
    + intros k Hk. apply H. exact Hk.
Qed.

Lemma dict_get_NoDup (key : string) (v : json) (members : list (string * json)) :
  List.NoDup (dict_keys members) ->
  dict_get key members = Some v <-> In (key, v) members.
Proof using Type.
  induction members as [|[k0 v0] rest IH]; simpl; intros Hnd.
  - split; [discriminate|intros []].
  - apply List.NoDup_cons_iff in Hnd as [Hnotin Hnd]. specialize (IH Hnd).
    destruct (dict_get key rest) as [v'|] eqn:Hg.
    + split.
      * intros [= <-]. right. apply IH. reflexivity.
      * intros [[= <- <-]|Hin].
        -- exfalso. apply Hnotin. apply dict_get_is_Some. eauto.
        -- apply IH. exact Hin.
    + destruct (String.eqb k0 key) eqn:E.
      * apply String.eqb_eq in E. subst k0. split.
        -- intros [= <-]. left. reflexivity.
        -- intros [[= <-]|Hin]; [reflexivity|]. apply IH in Hin. discriminate Hin.
      * split; [discriminate|].
        intros [[= -> _]|Hin]; [rewrite String.eqb_refl in E; discriminate E|].
        apply IH in Hin. discriminate Hin.
Qed.

Lemma dict_get_Permutation (key : string) (members members' : list (string * json)) :
  Permutation members members' ->
  List.NoDup (dict_keys members) ->
  dict_get key members' = dict_get key members.
Proof using Type.
  intros Hp Hnd.
  assert (List.NoDup (dict_keys members')) as Hnd'.
  { eapply Permutation_NoDup; [|exact Hnd]. apply Permutation_map. exact Hp. }
  destruct (dict_get key members) as [v|] eqn:Hg.
  - apply dict_get_NoDup; [exact Hnd'|]. eapply Permutation_in; [exact Hp|].
    apply dict_get_NoDup; assumption.
  - destruct (dict_get key members') as [v'|] eqn:Hg'; [|reflexivity].
    apply dict_get_NoDup in Hg'; [|exact Hnd'].
    apply (Permutation_in _ (Permutation_sym Hp)) in Hg'.
    apply dict_get_NoDup in Hg'; [|exact Hnd]. congruence.
Qed.

Lemma kwargs_bind_Permutation (fields : list string) (members members' : list (string * json)) :
  Permutation members members' ->
  kwargs_bind fields members' = kwargs_bind fields members.
Proof using Type.
  intros Hp.
  assert (forall k, In k (dict_keys members') <-> In k (dict_keys members)) as Hk.
  { intros k. split; apply Permutation_in; apply Permutation_map;
      [apply Permutation_sym|]; exact Hp. }
  destruct (kwargs_bind fields members) eqn:E.
  - apply kwargs_bind_key_set. intros k. rewrite Hk. apply kwargs_bind_key_set. exact E.
  - destruct (kwargs_bind fields members') eqn:E'; [|reflexivity].
    rewrite <- E. symmetry. apply kwargs_bind_key_set. intros k. rewrite <- Hk.
    apply kwargs_bind_key_set. exact E'.
Qed.

(** X16. The keyword call [Entry] or [NodeInfo] makes of a decoded
    body succeeds exactly when the body is an object whose set of keys
    is the set of the seven field names, whatever the values are; the
    order of the members does not matter: two objects with the same
    members, no key repeated, construct the same record or fail
    alike. *)
Theorem X16_construction_by_key_set :
  (forall v, (exists e, Entry_init v = Ok e) <->
             exists members, v = JObj members
               /\ forall k, In k (dict_keys members) <-> In k Entry_fields)
  /\ (forall v, (exists n, NodeInfo_init v = Ok n) <->
                exists members, v = JObj members
                  /\ forall k, In k (dict_keys members) <-> In k NodeInfo_fields)
  /\ (forall members members',
        Permutation members members' ->
        List.NoDup (dict_keys members) ->
        Entry_init (JObj members') = Entry_init (JObj members)
        /\ NodeInfo_init (JObj members') = NodeInfo_init (JObj members)).
Proof using Type.
  split; [|split].
  - intros v. split.
    + intros [e He]. destruct v; try discriminate He. exists members. split; [reflexivity|].
      apply kwargs_bind_key_set. unfold Entry_init in He.
      destruct (kwargs_bind Entry_fields members); [reflexivity|discriminate He].
    + intros (members & -> & Hk). apply kwargs_bind_key_set in Hk.
      unfold Entry_init. rewrite Hk. eauto.
  - intros v. split.
    + intros [e He]. destruct v; try discriminate He. exists members. split; [reflexivity|].
      apply kwargs_bind_key_set. unfold NodeInfo_init in He.
      destruct (kwargs_bind NodeInfo_fields members); [reflexivity|discriminate He].
    + intros (members & -> & Hk). apply kwargs_bind_key_set in Hk.
      unfold NodeInfo_init. rewrite Hk. eauto.
  - intros members members' Hp Hnd.
    unfold Entry_init, NodeInfo_init, field.
    rewrite !(kwargs_bind_Permutation _ _ _ Hp).
    rewrite !(fun k => dict_get_Permutation k _ _ Hp Hnd). split; reflexivity.
Qed.

(** ** The error codes *)


(** ** More on subscribe, and on sequences of operations *)

(** X18. [subscribe] needs no HTTP connection and makes none: the HTTP
    client, the requests sent and the sockets already open are as
    before, on a connected client and on one that is not. When the
    handshake fails the call raises and changes nothing: [_ws] still
    holds what it held and no task is started. *)
Theorem X18_subscribe_leaves_http_alone (s : state) (callback : Entry -> option exn) :
  let s' := exec (subscribe callback) s in
  _http_client s' = _http_client s
  /\ http_clients s' = http_clients s
  /\ sent (trace s') = sent (trace s)
  /\ calls (trace s') = calls (trace s)
  /\ (forall w sock, sockets s !! w = Some sock -> sockets s' !! w = Some sock)
  /\ (ws_accepts (ws_url (config s)) = false ->
        subscribe callback s = (Raise ws_ConnectionRefused, s)).
Proof.
  cbv zeta. unfold exec. rewrite subscribe_eq.
  destruct (ws_accepts (ws_url (config s))); simpl.
  - rewrite sent_app, calls_app. simpl. rewrite !app_nil_r.
    repeat split; try discriminate. intros w sock Hw. apply lookup_app_l_Some. exact Hw.
  - repeat split; auto.
Qed.




Lemma replaced_step (a : action) (s : state) (c : nat) :
  replaced s c ->
  replaced (step a s) c /\ http_clients (step a s) !! c = http_clients s !! c.
Proof.
  intros (Hok & Hlt & Hne).
  assert (forall s', _http_client s' = _http_client s -> http_clients s' = http_clients s ->
            config s' = config s ->
            replaced s' c /\ http_clients s' !! c = http_clients s !! c) as Hsame.
  { intros s' H1 H2 H3. unfold replaced, http_ok. rewrite H1, H2, H3. auto. }
  assert (replaced (exec connect s) c
          /\ http_clients (exec connect s) !! c = http_clients s !! c) as Hconnect.
  { rewrite exec_connect_eq. unfold replaced. simpl. split.
    - split; [|split].
      + intros c' [= <-]. apply list_lookup_middle. reflexivity.
      + rewrite length_app. lia.
      + intros [= E]. lia.
    - apply lookup_app_l. exact Hlt. }
  assert (forall op,
            replaced (exec (call op) s) c
            /\ http_clients (exec (call op) s) !! c = http_clients s !! c) as Hcall.
  { intros op. rewrite call_state by assumption.
    unfold posted_to, posted, ensured.
    destruct (_http_client s) as [c0|] eqn:Hc0.
    - apply Hsame; reflexivity || exact Hc0.
    - destruct Hconnect as [(Hok1 & Hlt1 & Hne1) E]. split; [|exact E].
      split; [|split]; assumption. }
  destruct a as [| |d|h| |cb|t|t|w m]; simpl.
  - exact Hconnect.
  - rewrite exec_disconnect_eq. unfold replaced. simpl. split.
    + split; [intros c' [=]|]. split; [|discriminate].
      destruct (_http_client s); [rewrite length_alter|]; exact Hlt.
    + destruct (_http_client s) as [c0|]; [|reflexivity].
      apply list_lookup_alter_ne. congruence.
  - specialize (Hcall (OpCreateEntry d)). rewrite exec_call in Hcall. exact Hcall.
  - specialize (Hcall (OpGetEntry h)). rewrite exec_call in Hcall. exact Hcall.
  - specialize (Hcall OpGetNodeInfo). rewrite exec_call in Hcall. exact Hcall.
  - unfold exec. rewrite subscribe_eq.
    destruct (ws_accepts (ws_url (config s))); apply Hsame; reflexivity.
  - unfold exec. rewrite unsubscribe_eq. apply Hsame; reflexivity.
  - destruct (run_task_turn s t) as (p & evs & socks & -> & _). apply Hsame; reflexivity.
  - apply (Hsame (exec (frame_arrives w m) s)); reflexivity.
Qed.

Lemma replaced_run (schedule : list action) (s : state) (c : nat) :
  replaced s c ->
  replaced (run schedule s) c
  /\ http_clients (run schedule s) !! c = http_clients s !! c.
Proof.
  revert s. induction schedule as [|a schedule IH]; intros s Hr; simpl.
  - auto.
  - destruct (replaced_step a s c Hr) as [Hr1 E1].
    destruct (IH _ Hr1) as [Hr2 E2]. split; [assumption|congruence].
Qed.

(** X20. [connect()] on a connected client puts a new [AsyncClient]
    in the place of the one held without closing it, and nothing reaches
    the old one afterwards: whatever is called and however the loop
    runs, [disconnect()] included, it stays open. *)
Theorem X20_replaced_http_client_stays_open (s : state) (c : nat) :
  http_ok s ->
  _http_client s = Some c ->
  forall schedule,
    http_clients (run (Connect :: schedule) s) !! c
    = Some (mkAsyncClient (node_url (config s)) (timeout (config s)) false).
Proof.
  intros Hok Hc schedule.
  change (run (Connect :: schedule) s) with (run schedule (exec connect s)).
  pose proof (Hok c Hc) as Hopen.
  assert (c < length (http_clients s)) as Hlt by (eapply lookup_lt_Some; eassumption).
  assert (replaced (exec connect s) c) as Hr.
  { rewrite exec_connect_eq. unfold replaced. simpl. split; [|split].
    - intros c' [= <-]. apply list_lookup_middle. reflexivity.
    - rewrite length_app. lia.
    - intros [= E]. lia. }
  destruct (replaced_run schedule _ c Hr) as [_ ->].
  rewrite exec_connect_eq. simpl. rewrite lookup_app_l by exact Hlt. exact Hopen.
Qed.

End Client.

(** * The claims on concrete nodes and runs *)

Abbreviation run_demo := (run node_serving accepts_all loads_two_frames).

Lemma http_ok_default : http_ok AIngleClient_default.
Proof. intros c H. discriminate H. Defined.

(** ** C1 *)

(** C1 fails as stated: with a node whose answer never comes,
    [create_entry] raises httpx's [TimeoutException], which carries no
    error kind, so no error of kind [TIMEOUT] is raised. *)
Lemma C1_counterexample :
  ~ (exists e,
       outcome (create_entry node_timing_out JNull) AIngleClient_default = Raise e
       /\ error_kind e = Some TIMEOUT).
Proof.
  intros (e & H & K). vm_compute in H. injection H as <-. discriminate K.
Qed.

Lemma C1_witness :
  outcome (call node_timing_out (OpCreateEntry JNull)) AIngleClient_default
  = Raise httpx_TimeoutException
  /\ outcome (call node_refusing (OpGetEntry "abc")) AIngleClient_default
     = Raise httpx_ConnectError
  /\ outcome (call (node_with_status 500) OpGetNodeInfo) AIngleClient_default
     = Raise (httpx_HTTPStatusError 500)
  /\ outcome (call (node_with_status 401) (OpCreateEntry JNull)) AIngleClient_default
     = Raise (httpx_HTTPStatusError 401).
Proof.
  split; [|split; [|split]].
  - apply (C1_failures_are_library_exceptions node_timing_out (OpCreateEntry JNull)
             AIngleClient_default http_ok_default).
    reflexivity.
  - apply (C1_failures_are_library_exceptions node_refusing (OpGetEntry "abc")
             AIngleClient_default http_ok_default).
    reflexivity.
  - apply (proj1 (proj2 (proj2
             (C1_failures_are_library_exceptions (node_with_status 500) OpGetNodeInfo
                AIngleClient_default http_ok_default))) (mkResponse 500 None));
      reflexivity.
  - apply (proj1 (proj2 (proj2 (proj2
             (C1_failures_are_library_exceptions (node_with_status 401) (OpCreateEntry JNull)
                AIngleClient_default http_ok_default)))) (mkResponse 401 None));
      reflexivity.
Defined.

(** ** C2 *)



(** ** C3 *)

(** C3 fails as stated: a 200 body without [signature] makes
    [get_entry] raise [TypeError], not an error of kind [INVALID_ENTRY],
    and a 200 body whose [hash] is the number 5 is not refused at all:
    the call returns an [Entry] whose [hash] is 5. *)
Lemma C3_counterexample :
  ~ (exists e,
       outcome (get_entry (node_answering body_without_signature) "abc")
         AIngleClient_default = Raise e
       /\ error_kind e = Some INVALID_ENTRY)
  /\ ~ (exists e,
          outcome (get_entry (node_answering body_with_numeric_hash) "abc")
            AIngleClient_default = Raise e).
Proof.
  split.
  - intros (e & H & K). vm_compute in H. injection H as <-. discriminate K.
  - intros (e & H). vm_compute in H. discriminate H.
Qed.

Lemma C3_witness :
  outcome (get_entry node_serving "missing") AIngleClient_default = Ok None
  /\ (exists e,
        outcome (get_entry node_serving "abc") AIngleClient_default = Ok (Some e)
        /\ hash e = JStr "abc")
  /\ outcome (get_entry (node_answering body_without_signature) "abc")
       AIngleClient_default = Raise TypeError.
Proof.
  split; [|split].
  - apply (proj1 (C3_get_entry_none_iff_404_and_fields node_serving AIngleClient_default
                    "missing" http_ok_default)).
    exists (mkResponse 404 None). split; reflexivity.
  - destruct (proj1 (proj2 (C3_get_entry_none_iff_404_and_fields node_serving
                              AIngleClient_default "abc" http_ok_default)
                       (mkResponse 200 (Some (sample_entry "abc")))
                       [("hash", JStr "abc"); ("author", JStr "agent"); ("parents", JArr []);
                        ("data", JNull); ("timestamp", JInt 0); ("sequence", JInt 0);
                        ("signature", JStr "sig")]
                       eq_refl eq_refl eq_refl) eq_refl) as (e & He & Hf).
    exists e. split; [exact He|].
    destruct (Hf "hash" (or_introl eq_refl)) as [Hg _].
    simpl in Hg. injection Hg as Hg. exact Hg.
  - apply (proj1 (proj2 (proj2 (C3_get_entry_none_iff_404_and_fields
                                  (node_answering body_without_signature)
                                  AIngleClient_default "abc" http_ok_default)
                           (mkResponse 200 (Some body_without_signature))
                           [("hash", JStr "abc"); ("author", JStr "agent");
                            ("parents", JArr []); ("data", JNull);
                            ("timestamp", JInt 0); ("sequence", JInt 0)]
                           eq_refl eq_refl eq_refl)) "signature").
    + simpl. tauto.
    + reflexivity.
Defined.

(** ** C4 *)

Lemma C4_witness :
  call node_serving (OpCreateEntry (JStr "Hello")) AIngleClient_default
  = (connect;; call node_serving (OpCreateEntry (JStr "Hello"))) AIngleClient_default
  /\ exists v, outcome (call node_serving OpGetNodeInfo) AIngleClient_default = Ok v.
Proof.
  split.
  - apply (C4_lazy_connect node_serving (OpCreateEntry (JStr "Hello")) AIngleClient_default).
    reflexivity.
  - apply (proj2 (proj2 (C4_lazy_connect node_serving OpGetNodeInfo AIngleClient_default
                           eq_refl)) (mkResponse 200 (Some sample_info)));
      reflexivity.
Defined.

(** ** C5 *)

(** Two subscriptions, each listener started before anything else
    happens: sockets 0 and 1, listener tasks 0 and 1. *)
Abbreviation two_subscriptions :=
  (run_demo [Subscribe returns_normally; RunTask 0; Subscribe returns_normally; RunTask 1]
     AIngleClient_default).



(** ** C6 *)

Lemma C6_witness :
  let s := run_demo [Connect; Subscribe returns_normally] AIngleClient_default in
  http_clients (exec disconnect s) !! 0
  = Some (mkAsyncClient "http://localhost:8080" (30 # 1) true)
  /\ sockets (exec disconnect s) !! 0
     = Some (mkWebSocket "ws://localhost:8081" true [])
  /\ disconnect (exec disconnect s) = (Ok tt, exec disconnect s).
Proof.
  cbv zeta.
  pose proof (C6_disconnect_idempotent
                (run_demo [Connect; Subscribe returns_normally] AIngleClient_default)) as H.
  cbv zeta in H. destruct H as (_ & Hh & Hw & Hagain & _).
  split; [|split].
  - apply (Hh 0 (mkAsyncClient "http://localhost:8080" (30 # 1) false)); reflexivity.
  - apply (Hw 0 (mkWebSocket "ws://localhost:8081" false [])); reflexivity.
  - exact Hagain.
Defined.

(** ** C8 *)

(** One subscription whose listener has started and waits. *)
Abbreviation one_subscription :=
  (run_demo [Subscribe returns_normally; RunTask 0] AIngleClient_default).

Lemma listening_one_subscription : listening one_subscription 0 0 returns_normally.
Proof.
  split.
  - exists (mkTask (listen returns_normally) (Suspended 0) false). repeat split.
  - exists (mkWebSocket "ws://localhost:8081" false []). repeat split.
Defined.

Lemma delivers_frame (h : string) :
  loads_two_frames (frame_text h) = Some (sample_entry h) ->
  delivers loads_two_frames returns_normally (frame_text h)
    (mkEntry (JStr h) (JStr "agent") (JArr []) JNull (JInt 0) (JInt 0) (JStr "sig")).
Proof. intros H. exists (sample_entry h). repeat split. exact H. Defined.

Lemma delivers_a_then_b :
  Forall2 (delivers loads_two_frames returns_normally)
    [frame_text "a"; frame_text "b"]
    [mkEntry (JStr "a") (JStr "agent") (JArr []) JNull (JInt 0) (JInt 0) (JStr "sig");
     mkEntry (JStr "b") (JStr "agent") (JArr []) JNull (JInt 0) (JInt 0) (JStr "sig")].
Proof.
  constructor; [apply delivers_frame; reflexivity|].
  constructor; [apply delivers_frame; reflexivity|].
  constructor.
Defined.

Lemma C8_witness :
  calls (trace (run_demo [FrameArrives 0 (frame_text "a"); RunTask 0;
                          FrameArrives 0 (frame_text "b"); RunTask 0] one_subscription))
  = [(0, mkEntry (JStr "a") (JStr "agent") (JArr []) JNull (JInt 0) (JInt 0) (JStr "sig"));
     (0, mkEntry (JStr "b") (JStr "agent") (JArr []) JNull (JInt 0) (JInt 0) (JStr "sig"))]
  /\ calls (trace (run_demo [FrameArrives 0 (frame_text "a"); FrameArrives 0 (frame_text "b");
                             RunTask 0] one_subscription))
     = [(0, mkEntry (JStr "a") (JStr "agent") (JArr []) JNull (JInt 0) (JInt 0) (JStr "sig"));
        (0, mkEntry (JStr "b") (JStr "agent") (JArr []) JNull (JInt 0) (JInt 0) (JStr "sig"))].
Proof.
  split.
  - apply (proj2 (C8_frames_in_arrival_order node_serving accepts_all loads_two_frames
                    [[frame_text "a"]; [frame_text "b"]] one_subscription 0 0
                    returns_normally _ listening_one_subscription delivers_a_then_b)).
  - apply (proj2 (C8_frames_in_arrival_order node_serving accepts_all loads_two_frames
                    [[frame_text "a"; frame_text "b"]] one_subscription 0 0
                    returns_normally _ listening_one_subscription delivers_a_then_b)).
Defined.

(** ** C9 *)



(** ** C10 *)

Lemma C10_witness :
  _ws (exec (unsubscribe 0) one_subscription) = Some 0
  /\ close_calls 0 (trace (run_demo [Unsubscribe 0; RunTask 1; Disconnect] one_subscription)) = 2
  /\ close_calls 0 (trace (exec disconnect two_subscriptions)) = 0.
Proof.
  pose proof (C10_unsubscribe_keeps_ws node_serving accepts_all loads_two_frames
                one_subscription 0) as (Hws & Htwice & Hlast).
  split; [exact Hws|split].
  - apply (proj1 (Htwice 0 eq_refl)).
  - apply (Hlast [Subscribe returns_normally; RunTask 0; Subscribe returns_normally;
                  RunTask 1] "http://localhost:8080" "ws://localhost:8081" (30 # 1) false 0).
    vm_compute. lia.
Defined.

(** * The further properties on concrete nodes and runs *)

Abbreviation connected_default := (exec connect AIngleClient_default).

Lemma http_ok_connected_default : http_ok connected_default.
Proof. intros c H. injection H as <-. reflexivity. Defined.




Lemma X5_witness :
  outcome (call (node_with_status 404) OpGetNodeInfo) AIngleClient_default
  = Raise (httpx_HTTPStatusError 404).
Proof.
  apply (X5_error_statuses_raise (node_with_status 404) OpGetNodeInfo AIngleClient_default
           (mkResponse 404 None) http_ok_default eq_refl).
  - simpl. lia.
  - intros hash H. discriminate H.
Defined.

Lemma X6_witness :
  outcome (get_node_info (node_with_status 404)) AIngleClient_default
  = Raise (httpx_HTTPStatusError 404)
  /\ exists n, outcome (get_node_info node_serving) AIngleClient_default = Ok n
       /\ NodeInfo_getattr n "version" = Some (JStr "0.1.0").
Proof.
  split.
  - apply (proj1 (X6_get_node_info_fields (node_with_status 404) AIngleClient_default
                    (mkResponse 404 None) http_ok_default eq_refl)).
    reflexivity.
  - destruct (proj1 (proj2 (X6_get_node_info_fields node_serving AIngleClient_default
                              (mkResponse 200 (Some sample_info)) http_ok_default eq_refl)
                       [("node_id", JStr "n1"); ("version", JStr "0.1.0"); ("uptime", JInt 5);
                        ("entries_count", JInt 1); ("peers_count", JInt 0);
                        ("storage_backend", JStr "sqlite"); ("features", JArr [])]
                       eq_refl eq_refl) eq_refl) as (n & Hn & Hf).
    exists n. split; [exact Hn|].
    exact (proj1 (Hf "version" (or_intror (or_introl eq_refl)))).
Defined.


Lemma X8_witness :
  prints (trace (run_demo [Connect; CreateEntry JNull; Subscribe returns_normally; Disconnect]
                   AIngleClient_default)) = []
  /\ prints (trace (exec (call node_serving OpGetNodeInfo) AIngleClient_verbose))
     = ["Connecting to http://localhost:8080"].
Proof.
  split.
  - apply (proj1 (X8_debug_printing node_serving accepts_all loads_two_frames
                    AIngleClient_default) eq_refl).
  - apply (proj2 (proj2 (X8_debug_printing node_serving accepts_all loads_two_frames
                           AIngleClient_verbose) eq_refl) OpGetNodeInfo).
    intros c H. discriminate H.
Defined.

Lemma X9_witness :
  let s' := run_demo [Unsubscribe 0; RunTask 0; RunTask 1] one_subscription in
  progress <$> tasks s' !! 0 = Some (Done (Raise CancelledError))
  /\ sockets s' !! 0 = Some (mkWebSocket "ws://localhost:8081" true [])
  /\ calls_of 0 (trace s') = [].
Proof.
  cbv zeta.
  apply (X9_unsubscribe_ends_latest_subscription node_serving accepts_all loads_two_frames
           one_subscription 0 0 (mkTask (listen returns_normally) (Suspended 0) false)
           (mkWebSocket "ws://localhost:8081" false [])).
  - reflexivity.
  - intros r H. discriminate H.
  - reflexivity.
  - reflexivity.
  - left. reflexivity.
Defined.

Lemma delivers_only_a :
  Forall2 (delivers loads_two_frames returns_normally)
    [frame_text "a"]
    [mkEntry (JStr "a") (JStr "agent") (JArr []) JNull (JInt 0) (JInt 0) (JStr "sig")].
Proof.
  constructor; [apply delivers_frame; reflexivity|]. constructor.
Defined.

Lemma X10_witness :
  let s :=
    run_demo [FrameArrives 0 (frame_text "a"); FrameArrives 0 "not json";
              FrameArrives 0 (frame_text "b")] one_subscription in
  let s' := exec (run_task loads_two_frames 0) s in
  progress <$> tasks s' !! 0 = Some (Done (Raise JSONDecodeError))
  /\ length (calls_of 0 (trace s')) = 1
  /\ inbox <$> sockets s' !! 0 = Some [frame_text "b"].
Proof.
  cbv zeta.
  pose proof (X10_bad_frame_ends_listener node_serving accepts_all loads_two_frames
                (run_demo [FrameArrives 0 (frame_text "a"); FrameArrives 0 "not json";
                           FrameArrives 0 (frame_text "b")] one_subscription)
                0 0 returns_normally
                (mkTask (listen returns_normally) (Suspended 0) false)
                (mkWebSocket "ws://localhost:8081" false
                   [frame_text "a"; "not json"; frame_text "b"])
                [frame_text "a"]
                [mkEntry (JStr "a") (JStr "agent") (JArr []) JNull (JInt 0) (JInt 0)
                   (JStr "sig")]
                "not json" [frame_text "b"] JSONDecodeError
                eq_refl eq_refl eq_refl eq_refl eq_refl eq_refl
                delivers_only_a
                eq_refl) as H.
  cbv zeta in H. destruct H as (Hp & Hc & Hi & _).
  split; [exact Hp|]. split; [|exact Hi].
  rewrite Hc. reflexivity.
Defined.


Lemma X12_witness :
  tasks (exec (run_task loads_two_frames 0) (exec disconnect one_subscription)) !! 0
  = Some (mkTask (listen returns_normally) (Done (Ok tt)) false)
  /\ tasks (exec disconnect one_subscription) = tasks one_subscription.
Proof.
  pose proof (X12_disconnect_and_the_listener loads_two_frames one_subscription) as H.
  cbv zeta in H. destruct H as (Ht & _ & _ & _ & _ & Hl).
  split; [|exact Ht].
  apply (Hl 0 0 (mkTask (listen returns_normally) (Suspended 0) false)
            (mkWebSocket "ws://localhost:8081" false []) returns_normally);
    reflexivity.
Defined.



Lemma no_close_queued_one_subscription (t : nat) (task : Task) :
  tasks one_subscription !! t = Some task ->
  coro task = ws_close_coro 0 ->
  exists r, progress task = Done r.
Proof.
  intros Ht Hco. destruct t as [|t].
  - injection Ht as <-. discriminate Hco.
  - destruct t; discriminate Ht.
Defined.

Lemma X15_witness :
  ws_closed <$> sockets (run_demo [Subscribe returns_normally; RunTask 1; Unsubscribe 0;
                                   RunTask 0; RunTask 2; Disconnect] one_subscription) !! 0
  = Some false.
Proof.
  apply (X15_overwritten_socket_stays_open node_serving accepts_all loads_two_frames
           one_subscription 0 (mkWebSocket "ws://localhost:8081" false []) returns_normally
           eq_refl eq_refl eq_refl no_close_queued_one_subscription
           [RunTask 1; Unsubscribe 0; RunTask 0; RunTask 2; Disconnect]).
Defined.

Lemma NoDup_keys_sample_info :
  List.NoDup
    (dict_keys [("node_id", JStr "n1"); ("version", JStr "0.1.0"); ("uptime", JInt 5);
                ("entries_count", JInt 1); ("peers_count", JInt 0);
                ("storage_backend", JStr "sqlite"); ("features", JArr [])]).
Proof.
  simpl.
  repeat (apply List.NoDup_cons;
          [simpl; intros H; repeat (destruct H as [H|H]; [discriminate H|]); exact H|]).
  apply List.NoDup_nil.
Defined.

Lemma X16_witness :
  NodeInfo_init
    (JObj [("version", JStr "0.1.0"); ("node_id", JStr "n1"); ("uptime", JInt 5);
           ("entries_count", JInt 1); ("peers_count", JInt 0);
           ("storage_backend", JStr "sqlite"); ("features", JArr [])])
  = NodeInfo_init sample_info.
Proof.
  apply (proj2 (proj2 X16_construction_by_key_set) _ _ (perm_swap _ _ _)
           NoDup_keys_sample_info).
Defined.


Lemma X18_witness :
  subscribe accepts_none returns_normally one_subscription
  = (Raise ws_ConnectionRefused, one_subscription)
  /\ sockets (exec (subscribe accepts_all returns_normally) one_subscription) !! 0
     = Some (mkWebSocket "ws://localhost:8081" false []).
Proof.
  split.
  - apply (X18_subscribe_leaves_http_alone accepts_none one_subscription returns_normally).
    reflexivity.
  - apply (X18_subscribe_leaves_http_alone accepts_all one_subscription returns_normally).
    reflexivity.
Defined.


Lemma X20_witness :
  http_clients (run_demo [Connect; CreateEntry JNull; Disconnect] connected_default) !! 0
  = Some (mkAsyncClient "http://localhost:8080" (30 # 1) false).
Proof.
  apply (X20_replaced_http_client_stays_open node_serving accepts_all loads_two_frames
           connected_default 0 http_ok_connected_default eq_refl
           [CreateEntry JNull; Disconnect]).
Defined.
